(** * Chat session orchestration layer: a shallow embedding

    The development follows the FastAPI back end of the repository:
    - [chat_routes.py]   conversation and message handlers,
    - [auth_routes.py]   login,
    - [gen_ai_service.py] prompt formatting and the call to the generation
      backend,
    - [settings.py]      the token lifetime.

    Python [int] is [Z], [str] is [string] (a list of bytes), a [dict] with
    string keys is a [gmap string _], a table is the list of its rows in
    insertion order.  A handler is a computation over a database session:
    it threads the session, may read the clock, may call the generation
    backend, and may raise. *)

From Stdlib Require Import ZArith Ascii String List.
From Stdlib Require QArith.QArith_base.
From Stdlib Require DecimalString DecimalPos DecimalZ.
From stdpp Require Import base decidable option list sorting gmap strings.

Local Open Scope string_scope.
Local Open Scope list_scope.
Local Open Scope Z_scope.

(** ** Rows of the three tables

    The ORM classes [User], [Conversation] and [Message] are imported by the
    handlers from [app.models.models]; their columns are the ones the
    handlers read and write. *)

Module User.
Record t := mk {
  id : Z;
  username : string;
  email : string;
  hashed_password : string;
  is_active : bool
}.
End User.

Module Conversation.
Record t := mk {
  id : Z;
  user_id : Z;
  title : string;
  created_at : Z;
  updated_at : Z
}.

(** [conversation.updated_at = now], every other column kept. *)
Definition set_updated_at (now : Z) (c : t) : t :=
  mk (id c) (user_id c) (title c) (created_at c) now.
End Conversation.

Module Message.
Record t := mk {
  id : Z;
  conversation_id : Z;
  role : string;
  content : string;
  created_at : Z
}.
End Message.

#[global] Instance User_eq_dec : EqDecision User.t.
Proof. solve_decision. Defined.
#[global] Instance Conversation_eq_dec : EqDecision Conversation.t.
Proof. solve_decision. Defined.
#[global] Instance Message_eq_dec : EqDecision Message.t.
Proof. solve_decision. Defined.

(** ** The persistent store *)

Record DB := mkDB {
  users : list User.t;
  conversations : list Conversation.t;
  messages : list Message.t;
  (** next values of the auto-increment primary keys *)
  conversation_seq : Z;
  message_seq : Z
}.

(** ** Integers as text

    [str(n)] and [int(s)]: decimal rendering and parsing of an integer. *)

Definition str_int (z : Z) : string :=
  DecimalString.NilZero.string_of_int (Z.to_int z).

Definition int_str (s : string) : option Z :=
  option_map Z.of_int (DecimalString.NilZero.int_of_string s).

(** ** Exceptions and results *)

Inductive auth_error := Invalid | Expired.

Inductive exn :=
| HTTPException (status_code : Z) (detail : string)
| Exception (msg : string)
| AuthError (kind : auth_error).

(** [str(e)]: the message of a plain [Exception]; for an [HTTPException]
    the text its [__str__] builds from status code and detail. *)
Definition str_exn (e : exn) : string :=
  match e with
  | HTTPException c d => str_int c +:+ ": " +:+ d
  | Exception m => m
  | AuthError Invalid => "Invalid"
  | AuthError Expired => "Expired"
  end.

Inductive result (A : Type) :=
| Ok (a : A)
| Raise (e : exn).
Arguments Ok {A} a.
Arguments Raise {A} e.

Definition HTTP_401_UNAUTHORIZED : Z := 401.
Definition HTTP_403_FORBIDDEN : Z := 403.
Definition HTTP_404_NOT_FOUND : Z := 404.
Definition HTTP_500_INTERNAL_SERVER_ERROR : Z := 500.

(** ** The generation backend seen from the client *)

Record GenerationConfig := mkConfig {
  temperature : QArith_base.Q;
  max_output_tokens : Z
}.

Record BackendCall := mkCall {
  call_prompt : string;
  call_config : GenerationConfig
}.

(** ** The world a request runs in, and the session of one request

    [store] is what is durable; [ticks] counts the clock readings taken so
    far; [sent] is the trace of requests made to the generation backend,
    oldest first.  A session works on [pending], its own view of the
    store, which [db_commit] makes durable; what is still uncommitted when
    the request ends is dropped by [get_db]'s [db.close()].  [commits]
    lists the stores the session made durable, one per [db.commit()],
    oldest first: together with the store the session started from they
    are all the states another request can observe. *)

Record World := mkWorld {
  store : DB;
  ticks : nat;
  sent : list BackendCall
}.

Record Session := mkSession {
  world : World;
  pending : DB;
  commits : list DB
}.

Definition M (A : Type) : Type := Session -> result A * Session.

Definition ret {A} (a : A) : M A := fun s => (Ok a, s).

Definition raise {A} (e : exn) : M A := fun s => (Raise e, s).

Definition bind {A B} (m : M A) (k : A -> M B) : M B :=
  fun s =>
    match m s with
    | (Ok a, s') => k a s'
    | (Raise e, s') => (Raise e, s')
    end.

(** [try: m  except Exception as e: h e] *)
Definition try_except {A} (m : M A) (h : exn -> M A) : M A :=
  fun s =>
    match m s with
    | (Ok a, s') => (Ok a, s')
    | (Raise e, s') => h e s'
    end.

Declare Scope handler_scope.
Delimit Scope handler_scope with handler.
Notation "x <- m ;; k" := (bind m (fun x => k))
  (at level 100, m at next level, right associativity) : handler_scope.
Notation "m ;;; k" := (bind m (fun _ => k))
  (at level 100, right associativity) : handler_scope.
Local Open Scope handler_scope.

(** [Depends(get_db)]: open a session on the store, run the handler, close
    the session. *)
Definition SessionLocal (w : World) : Session := mkSession w (store w) [].

Definition serve {A} (h : M A) (w : World) : result A * World :=
  let '(r, s) := h (SessionLocal w) in (r, world s).

(** The stores a request made durable, in the order of its commits. *)
Definition durable_states {A} (h : M A) (w : World) : list DB :=
  commits (h (SessionLocal w)).2.

(** ** Session primitives *)

Definition db_commit : M unit :=
  fun s =>
    (Ok tt, mkSession (mkWorld (pending s) (ticks (world s)) (sent (world s)))
                      (pending s) (commits s ++ [pending s])).

Definition get_pending : M DB := fun s => (Ok (pending s), s).

Definition set_pending (d : DB) : M unit :=
  fun s => (Ok tt, mkSession (world s) d (commits s)).

(** [.order_by(key)]: rows with equal keys keep their insertion order. *)
Fixpoint insert_by {A} (key : A -> Z) (x : A) (l : list A) : list A :=
  match l with
  | [] => [x]
  | y :: l' => if key x <=? key y then x :: y :: l' else y :: insert_by key x l'
  end.

Definition order_by {A} (key : A -> Z) (l : list A) : list A :=
  foldr (insert_by key) [] l.

(** [db.query(User).filter(User.id == user_id).first()] *)
Definition query_user_by_id (user_id : Z) : M (option User.t) :=
  d <- get_pending ;;
  ret (head (filter (fun u => User.id u = user_id) (users d))).

(** [db.query(User).filter(User.email == email).first()] *)
Definition query_user_by_email (email : string) : M (option User.t) :=
  d <- get_pending ;;
  ret (head (filter (fun u => User.email u = email) (users d))).

(** [db.query(Conversation).filter(Conversation.id == conversation_id,
    Conversation.user_id == user_id).first()] *)
Definition query_conversation (conversation_id user_id : Z)
  : M (option Conversation.t) :=
  d <- get_pending ;;
  ret (head (filter (fun c => Conversation.id c = conversation_id
                              /\ Conversation.user_id c = user_id)
                    (conversations d))).

(** [db.query(Conversation).filter(Conversation.user_id == user_id)
      .order_by(Conversation.updated_at.desc()).all()] *)
Definition query_conversations_of (user_id : Z) : M (list Conversation.t) :=
  d <- get_pending ;;
  ret (order_by (fun c => - Conversation.updated_at c)
         (filter (fun c => Conversation.user_id c = user_id) (conversations d))).

Definition messages_of (conversation_id : Z) (d : DB) : list Message.t :=
  order_by Message.created_at
    (filter (fun m => Message.conversation_id m = conversation_id) (messages d)).

(** [db.query(Message).filter(Message.conversation_id == conversation_id)
      .order_by(Message.created_at).all()] *)
Definition query_messages (conversation_id : Z) : M (list Message.t) :=
  d <- get_pending ;;
  ret (messages_of conversation_id d).

(** ** Strings ([str] methods used by the prompt formatter) *)

Definition is_ascii_lower (c : ascii) : bool :=
  let n := N_of_ascii c in ((97 <=? n) && (n <=? 122))%N.

Definition is_ascii_upper (c : ascii) : bool :=
  let n := N_of_ascii c in ((65 <=? n) && (n <=? 90))%N.

Definition upper_ascii (c : ascii) : ascii :=
  if is_ascii_lower c then ascii_of_N (N_of_ascii c - 32) else c.

Definition lower_ascii (c : ascii) : ascii :=
  if is_ascii_upper c then ascii_of_N (N_of_ascii c + 32) else c.

(** [s.lower()] on the ASCII letters; other bytes are left as they are. *)
Fixpoint lower (s : string) : string :=
  match s with
  | EmptyString => EmptyString
  | String c r => String (lower_ascii c) (lower r)
  end.

(** [s.capitalize()] of an ASCII string: first character upper-cased, the
    rest lower-cased.  Bytes outside ASCII are left as they are, which is
    not what Python does with them: properties of [capitalize] are stated
    for ASCII strings only. *)
Definition capitalize (s : string) : string :=
  match s with
  | EmptyString => EmptyString
  | String c r => String (upper_ascii c) (lower r)
  end.

(** ["\n"] *)
Definition newline : string := String "010"%char EmptyString.

(** [sep.join(parts)] *)
Definition join (sep : string) (parts : list string) : string :=
  String.concat sep parts.

(** ** gen_ai_service.py *)

Module GenAIService.

(** One turn of the history: a [dict] with string keys and values. *)
Abbreviation message := (gmap string string).

Definition format_turn (msg : message) : string :=
  let role := default "user" (msg !! "role") in
  let content := default "" (msg !! "content") in
  capitalize role +:+ ": " +:+ content.

Definition _format_messages_for_gemini (messages : list message) : string :=
  let formatted := map format_turn messages in
  join newline formatted +:+ newline +:+ "Assistant:".

(** default of the [temperature] parameter: [0.7] *)
Definition default_temperature : QArith_base.Q := QArith_base.Qmake 7 10.

(** [max_tokens or 1024] *)
Definition max_tokens_or (max_tokens : option Z) (d : Z) : Z :=
  match max_tokens with
  | None => d
  | Some n => if n =? 0 then d else n
  end.

End GenAIService.

(** ** Request and response schemas of chat_routes.py *)

Record MessageResponse := mkMessageResponse {
  mr_id : Z;
  mr_role : string;
  mr_content : string;
  mr_created_at : Z
}.

Record ConversationCreate := mkConversationCreate {
  cc_title : string
}.

(** [ConversationCreate()] with the default title *)
Definition ConversationCreate_default : ConversationCreate :=
  mkConversationCreate "New Conversation".

Record ConversationResponse := mkConversationResponse {
  cr_id : Z;
  cr_title : string;
  cr_created_at : Z;
  cr_updated_at : Z
}.

Record ConversationDetailResponse := mkConversationDetailResponse {
  cd_conversation : ConversationResponse;
  cd_messages : list MessageResponse
}.

Record ChatRequest := mkChatRequest {
  conversation_id : Z;
  message : string
}.

Record ChatResponse := mkChatResponse {
  assistant_message : string;
  message_id : Z
}.

(** [from_attributes = True]: a response is read off the row. *)
Definition MessageResponse_of (m : Message.t) : MessageResponse :=
  mkMessageResponse (Message.id m) (Message.role m) (Message.content m)
                    (Message.created_at m).

Definition ConversationResponse_of (c : Conversation.t) : ConversationResponse :=
  mkConversationResponse (Conversation.id c) (Conversation.title c)
                         (Conversation.created_at c) (Conversation.updated_at c).

(** The two failures the chat handlers raise themselves. *)
Definition conversation_not_found : exn :=
  HTTPException HTTP_404_NOT_FOUND "Conversation not found".

Definition user_not_found : exn :=
  HTTPException HTTP_404_NOT_FOUND "User not found".

(** ** settings.py *)

Module settings.
Definition ALGORITHM : string := "HS256".
Definition ACCESS_TOKEN_EXPIRE_MINUTES : Z := 60 * 24.
Definition GEMINI_MODEL : string := "gemini-pro".
End settings.

(** ** Tokens *)

(** A value of the token payload. *)
Inductive claim :=
| ClaimStr (s : string)
| ClaimInt (n : Z).

#[global] Instance claim_eq_dec : EqDecision claim.
Proof. solve_decision. Defined.

(** A token: the payload it carries and the signature over that payload. *)
Record Token := mkToken {
  payload : gmap string claim;
  signature : string
}.

(** ** Schemas of auth_routes.py *)

Record UserLogin := mkUserLogin {
  login_email : string;
  login_password : string
}.

Record TokenResponse := mkTokenResponse {
  access_token : Token;
  token_type : string;
  tr_user_id : Z
}.

Definition invalid_credentials : exn :=
  HTTPException HTTP_401_UNAUTHORIZED "Invalid email or password".

Definition account_inactive : exn :=
  HTTPException HTTP_403_FORBIDDEN "User account is inactive".

(** ** The handlers *)

Section Handlers.

(** [utcnow k] is the [k]-th reading of [datetime.utcnow()], in seconds. *)
Variable utcnow : nat -> Z.

(** [self.model.generate_content(prompt, generation_config=...)] followed
    by [response.text]: the text, or the exception the backend raised. *)
Variable generate_content : string -> GenerationConfig -> result string.

(** [settings.SECRET_KEY], read from the environment at start-up. *)
Variable SECRET_KEY : string.

(** The keyed signature of the token scheme ([settings.ALGORITHM]). *)
Variable sign : string -> gmap string claim -> string.

(** [verify_password(plain, hashed)] of the credential service. *)
Variable verify_password : string -> string -> bool.

(** [datetime.utcnow()] *)
Definition now : M Z :=
  fun s =>
    let w := world s in
    (Ok (utcnow (ticks w)),
     mkSession (mkWorld (store w) (S (ticks w)) (sent w)) (pending s)
               (commits s)).

(** *** gen_ai_service.py: [GenAIService.generate_response] *)

Definition model_generate_content (prompt : string) (cfg : GenerationConfig)
  : M string :=
  fun s =>
    let w := world s in
    (generate_content prompt cfg,
     mkSession (mkWorld (store w) (ticks w) (sent w ++ [mkCall prompt cfg]))
               (pending s) (commits s)).

Definition generate_response (messages : list GenAIService.message)
    (temperature : QArith_base.Q) (max_tokens : option Z) : M string :=
  try_except
    (let prompt := GenAIService._format_messages_for_gemini messages in
     response_text <-
       model_generate_content prompt
         (mkConfig temperature (GenAIService.max_tokens_or max_tokens 1024)) ;;
     ret response_text)
    (fun e => raise (Exception ("Error generating response: " +:+ str_exn e))).

(** *** Writes of a session *)

(** Modelled from the spec: the [Conversation] class of
    [app.models.models] is not among the sources; a new conversation gets
    the next id and both timestamps set to the current time.
    [db.add(conversation)] *)
Definition db_add_conversation (user_id : Z) (title : string)
  : M Conversation.t :=
  d <- get_pending ;;
  t <- now ;;
  let c := Conversation.mk (conversation_seq d) user_id title t t in
  set_pending (mkDB (users d) (conversations d ++ [c]) (messages d)
                    (conversation_seq d + 1) (message_seq d)) ;;;
  ret c.

(** Modelled from the spec: the [Message] class of [app.models.models] is
    not among the sources; a new message gets the next id and a fresh
    creation timestamp.  [db.add(message)] *)
Definition db_add_message (conversation_id : Z) (role content : string)
  : M Message.t :=
  d <- get_pending ;;
  t <- now ;;
  let m := Message.mk (message_seq d) conversation_id role content t in
  set_pending (mkDB (users d) (conversations d) (messages d ++ [m])
                    (conversation_seq d) (message_seq d + 1)) ;;;
  ret m.

(** [conversation.updated_at = t]: the row of that primary key is
    updated. *)
Definition db_set_updated_at (conversation : Conversation.t) (t : Z)
  : M unit :=
  d <- get_pending ;;
  set_pending
    (mkDB (users d)
          (map (fun c => if decide (Conversation.id c = Conversation.id conversation)
                         then Conversation.set_updated_at t c else c)
               (conversations d))
          (messages d) (conversation_seq d) (message_seq d)).

(** Modelled from the spec: the relationship between [Conversation] and
    [Message] in [app.models.models] is not among the sources; deleting
    a conversation deletes all its messages (cascade).
    [db.delete(conversation)] *)
Definition db_delete_conversation (conversation : Conversation.t) : M unit :=
  d <- get_pending ;;
  set_pending
    (mkDB (users d)
          (filter (fun c => Conversation.id c <> Conversation.id conversation)
                  (conversations d))
          (filter (fun m => Message.conversation_id m <> Conversation.id conversation)
                  (messages d))
          (conversation_seq d) (message_seq d)).

(** Modelled from the spec: [conversation.messages] is a relationship of
    [app.models.models], not among the sources; it yields the
    conversation's messages in creation order. *)
Definition conversation_messages (conversation : Conversation.t)
  : M (list Message.t) :=
  query_messages (Conversation.id conversation).

(** *** chat_routes.py *)

Definition create_conversation (data : ConversationCreate) (user_id : Z)
  : M ConversationResponse :=
  user <- query_user_by_id user_id ;;
  match user with
  | None => raise user_not_found
  | Some _ =>
      conversation <- db_add_conversation user_id (cc_title data) ;;
      db_commit ;;;
      ret (ConversationResponse_of conversation)
  end.

Definition list_conversations (user_id : Z) : M (list ConversationResponse) :=
  conversations <- query_conversations_of user_id ;;
  ret (map ConversationResponse_of conversations).

Definition get_conversation (conversation_id user_id : Z)
  : M ConversationDetailResponse :=
  conversation <- query_conversation conversation_id user_id ;;
  match conversation with
  | None => raise conversation_not_found
  | Some conversation =>
      msgs <- conversation_messages conversation ;;
      ret (mkConversationDetailResponse
             (ConversationResponse_of conversation)
             (map MessageResponse_of msgs))
  end.

(** [{"role": msg.role, "content": msg.content}] *)
Definition history_entry (msg : Message.t) : GenAIService.message :=
  {[ "role" := Message.role msg; "content" := Message.content msg ]}.

Definition send_message (conversation_id : Z) (chat_request : ChatRequest)
    (user_id : Z) : M ChatResponse :=
  (* Verify conversation ownership *)
  conversation <- query_conversation conversation_id user_id ;;
  match conversation with
  | None => raise conversation_not_found
  | Some conversation =>
      (* Save user message *)
      user_message <-
        db_add_message conversation_id "user" (message chat_request) ;;
      db_commit ;;;
      (* Get conversation history *)
      messages <- query_messages conversation_id ;;
      (* Format for Gen AI *)
      let message_history := map history_entry messages in
      (* Get AI response *)
      ai_response <-
        try_except
          (generate_response message_history
             GenAIService.default_temperature None)
          (fun e =>
             raise (HTTPException HTTP_500_INTERNAL_SERVER_ERROR
                      ("Error generating response: " +:+ str_exn e))) ;;
      (* Save assistant message *)
      assistant_message <-
        db_add_message conversation_id "assistant" ai_response ;;
      db_commit ;;;
      (* Update conversation timestamp *)
      t <- now ;;
      db_set_updated_at conversation t ;;;
      db_commit ;;;
      ret (mkChatResponse ai_response (Message.id assistant_message))
  end.

Definition delete_conversation (conversation_id user_id : Z) : M string :=
  conversation <- query_conversation conversation_id user_id ;;
  match conversation with
  | None => raise conversation_not_found
  | Some conversation =>
      db_delete_conversation conversation ;;;
      db_commit ;;;
      ret "Conversation deleted successfully"
  end.

(** *** The credential service *)

(** Modelled from the spec: [create_access_token] of
    [app.services.auth_service] is not among the sources.  It signs, with
    the process-wide secret, the given claims extended with an absolute
    expiry of now + [ACCESS_TOKEN_EXPIRE_MINUTES]. *)
Definition create_access_token (data : gmap string claim) : M Token :=
  t <- now ;;
  let expire := t + settings.ACCESS_TOKEN_EXPIRE_MINUTES * 60 in
  let to_encode := <[ "exp" := ClaimInt expire ]> data in
  ret (mkToken to_encode (sign SECRET_KEY to_encode)).

(** [issue_token(user_id)]: what [register] and [login] do,
    [create_access_token(data={"sub": str(user.id)})]. *)
Definition issue_token (user_id : Z) : M Token :=
  create_access_token {[ "sub" := ClaimStr (str_int user_id) ]}.

(** The subject and the expiry of a payload, when it is well formed. *)
Definition decode_payload (p : gmap string claim) : option (Z * Z) :=
  match p !! "sub", p !! "exp" with
  | Some (ClaimStr sub), Some (ClaimInt exp) =>
      match int_str sub with
      | Some user_id => Some (user_id, exp)
      | None => None
      end
  | _, _ => None
  end.

(** Modelled from the spec: [verify_token] of [app.services.auth_service]
    is not among the sources.  It fails with [Invalid] if the signature
    does not verify or the payload is malformed, with [Expired] if the
    expiry timestamp has passed, and returns the embedded user id
    otherwise; the store is not consulted. *)
Definition verify_token (token : Token) : M Z :=
  t <- now ;;
  if decide (signature token = sign SECRET_KEY (payload token)) then
    match decode_payload (payload token) with
    | None => raise (AuthError Invalid)
    | Some (user_id, exp) =>
        if exp <? t then raise (AuthError Expired) else ret user_id
    end
  else raise (AuthError Invalid).

(** [user_id: int = Depends(verify_token)] *)
Definition Depends_verify_token {A} (token : Token) (handler : Z -> M A)
  : M A :=
  user_id <- verify_token token ;;
  handler user_id.

(** *** auth_routes.py *)

Definition login (user_data : UserLogin) : M TokenResponse :=
  (* Find user by email *)
  user <- query_user_by_email (login_email user_data) ;;
  match user with
  | None => raise invalid_credentials
  | Some user =>
      if negb (verify_password (login_password user_data)
                               (User.hashed_password user))
      then raise invalid_credentials
      else if negb (User.is_active user)
      then raise account_inactive
      else
        (* Generate token *)
        access_token <-
          create_access_token {[ "sub" := ClaimStr (str_int (User.id user)) ]} ;;
        ret (mkTokenResponse access_token "bearer" (User.id user))
  end.

End Handlers.

(** ** Vocabulary of the properties *)

(** The row the ownership check of the chat handlers finds. *)
Definition owned_conversation (d : DB) (conversation_id user_id : Z)
  : option Conversation.t :=
  head (filter (fun c => Conversation.id c = conversation_id
                         /\ Conversation.user_id c = user_id)
               (conversations d)).

(** The store with one more message / one more conversation. *)
Definition with_message (d : DB) (m : Message.t) : DB :=
  mkDB (users d) (conversations d) (messages d ++ [m])
       (conversation_seq d) (message_seq d + 1).

Definition with_conversation (d : DB) (c : Conversation.t) : DB :=
  mkDB (users d) (conversations d ++ [c]) (messages d)
       (conversation_seq d + 1) (message_seq d).

(** The store after [touch]: the last-updated column of one primary key. *)
Definition touched (d : DB) (conversation_id t : Z) : DB :=
  mkDB (users d)
       (map (fun c => if decide (Conversation.id c = conversation_id)
                      then Conversation.set_updated_at t c else c)
            (conversations d))
       (messages d) (conversation_seq d) (message_seq d).

(** The store without a conversation and without its messages. *)
Definition without_conversation (d : DB) (conversation_id : Z) : DB :=
  mkDB (users d)
       (filter (fun c => Conversation.id c <> conversation_id) (conversations d))
       (filter (fun m => Message.conversation_id m <> conversation_id) (messages d))
       (conversation_seq d) (message_seq d).

(** The prompt and the parameters [send_message] sends for a conversation. *)
Definition prompt_of (d : DB) (conversation_id : Z) : string :=
  GenAIService._format_messages_for_gemini
    (map history_entry (messages_of conversation_id d)).

Definition default_config : GenerationConfig :=
  mkConfig GenAIService.default_temperature 1024.

(** The user turn [send_message] persists in world [w], and the assistant
    turn persisted after it. *)
Definition user_turn (utcnow : nat -> Z) (w : World) (cid : Z)
    (req : ChatRequest) : Message.t :=
  Message.mk (message_seq (store w)) cid "user" (message req) (utcnow (ticks w)).

Definition assistant_turn (utcnow : nat -> Z) (w : World) (cid : Z)
    (text : string) : Message.t :=
  Message.mk (message_seq (store w) + 1) cid "assistant" text
             (utcnow (S (ticks w))).

(** (role, content) of a message, the turn of the history it stands for. *)
Definition turn (m : Message.t) : string * string :=
  (Message.role m, Message.content m).

(** Primary keys are unique and below the next value of their sequence. *)
Definition wf_db (d : DB) : Prop :=
  NoDup (map Conversation.id (conversations d))
  /\ Forall (fun c => Conversation.id c < conversation_seq d) (conversations d)
  /\ NoDup (map Message.id (messages d))
  /\ Forall (fun m => Message.id m < message_seq d) (messages d).

(** Every message has its parent conversation. *)
Definition no_orphans (d : DB) : Prop :=
  Forall (fun m => exists c, c ∈ conversations d
                             /\ Conversation.id c = Message.conversation_id m)
         (messages d).

(** Sequential requests on one conversation, each in its own session. *)
Fixpoint send_all (utcnow : nat -> Z)
    (generate_content : string -> GenerationConfig -> result string)
    (conversation_id user_id : Z) (texts : list ChatRequest) (w : World)
  : list (result ChatResponse) * World :=
  match texts with
  | [] => ([], w)
  | req :: rest =>
      let '(r, w1) :=
        serve (send_message utcnow generate_content conversation_id req user_id) w in
      let '(rs, w2) :=
        send_all utcnow generate_content conversation_id user_id rest w1 in
      (r :: rs, w2)
  end.

(** The turns [n] successful requests add, in call order. *)
Fixpoint pairs_of (reqs : list ChatRequest) (resps : list ChatResponse)
  : list (string * string) :=
  match reqs, resps with
  | req :: reqs', resp :: resps' =>
      ("user", message req) :: ("assistant", assistant_message resp)
        :: pairs_of reqs' resps'
  | _, _ => []
  end.

(** ** A small world for the examples: user 1 (active) owns conversations
    1 and 2, user 2 is inactive, the clock counts seconds from 1000. *)

Definition ana : User.t := User.mk 1 "ana" "ana@x.com" "hash:pw123" true.
Definition bob : User.t := User.mk 2 "bob" "bob@x.com" "hash:hunter2" false.
Definition trip : Conversation.t := Conversation.mk 1 1 "trip" 990 990.
Definition errands : Conversation.t := Conversation.mk 2 1 "errands" 995 995.

Definition db0 : DB := mkDB [ana; bob] [trip; errands] [] 3 1.
Definition world0 : World := mkWorld db0 0 [].
Definition clock0 : nat -> Z := fun k => 1000 + Z.of_nat k.
Definition hello_backend : string -> GenerationConfig -> result string :=
  fun _ _ => Ok "hello".
Definition failing_backend : string -> GenerationConfig -> result string :=
  fun _ _ => Raise (Exception "quota exceeded").
Definition plain_verify_password (plain hashed : string) : bool :=
  bool_decide (hashed = "hash:" +:+ plain).
Definition toy_sign (key : string) (p : gmap string claim) : string :=
  match p !! "sub", p !! "exp" with
  | Some (ClaimStr s), Some (ClaimInt n) => key +:+ "|" +:+ s +:+ "|" +:+ str_int n
  | _, _ => key
  end.

(** The row the user check of [create_conversation] finds. *)
Definition user_row (d : DB) (user_id : Z) : option User.t :=
  head (filter (fun u => User.id u = user_id) (users d)).

(** [user_id] references an active user. *)
Definition references_active_user (d : DB) (user_id : Z) : Prop :=
  exists u, u ∈ users d /\ User.id u = user_id /\ User.is_active u = true.

(** The rows of one conversation in the [messages] table, in table order. *)
Definition rows_of (conversation_id : Z) (d : DB) : list Message.t :=
  filter (fun m => Message.conversation_id m = conversation_id) (messages d).

(** A clock that never runs backwards. *)
Definition monotone (utcnow : nat -> Z) : Prop :=
  forall i j : nat, (i <= j)%nat -> utcnow i <= utcnow j.

(** The rows of a conversation were stamped in table order, none later
    than the clock's next reading. *)
Definition stamped_in_order (utcnow : nat -> Z) (w : World)
    (conversation_id : Z) : Prop :=
  StronglySorted (fun m1 m2 => Message.created_at m1 <= Message.created_at m2)
                 (rows_of conversation_id (store w))
  /\ Forall (fun m => Message.created_at m <= utcnow (ticks w))
            (rows_of conversation_id (store w)).

(** What [touch] may change in a conversation row: for the touched primary
    key the last-updated column, for every other row nothing. *)
Definition touch_only (conversation_id t : Z) (c c' : Conversation.t) : Prop :=
  Conversation.id c' = Conversation.id c
  /\ Conversation.user_id c' = Conversation.user_id c
  /\ Conversation.title c' = Conversation.title c
  /\ Conversation.created_at c' = Conversation.created_at c
  /\ (Conversation.id c = conversation_id -> Conversation.updated_at c' = t)
  /\ (Conversation.id c <> conversation_id -> c' = c).

(** The [dict] of a (role, content) pair of the history. *)
Definition message_of_turn (t : string * string) : GenAIService.message :=
  {[ "role" := t.1; "content" := t.2 ]}.

(** A turn rendered as "<Role>: <content>". *)
Definition rendered (t : string * string) : string :=
  capitalize t.1 +:+ ": " +:+ t.2.

(** 24 hours, in seconds. *)
Definition twenty_four_hours : Z := 24 * 60 * 60.

(** ** auth_routes.py: registration *)

Definition HTTP_400_BAD_REQUEST : Z := 400.

Record UserRegister := mkUserRegister {
  reg_username : string;
  reg_email : string;
  reg_password : string
}.

Definition user_already_exists : exn :=
  HTTPException HTTP_400_BAD_REQUEST
    "User with this email or username already exists".

(** The store with one more user. *)
Definition with_user (d : DB) (u : User.t) : DB :=
  mkDB (users d ++ [u]) (conversations d) (messages d)
       (conversation_seq d) (message_seq d).

Section Registration.

Variable utcnow : nat -> Z.
Variable SECRET_KEY : string.
Variable sign : string -> gmap string claim -> string.

(** [hash_password(password)] of the credential service. *)
Variable hash_password : string -> string.

(** The column defaults of the [User] class of [app.models.models], which
    is not among the sources: the primary key a new row gets in a given
    store, and the initial value of [is_active]. *)
Variable user_id_default : DB -> Z.
Variable is_active_default : bool.

(** [db.query(User).filter((User.email == email)
      | (User.username == username)).first()] *)
Definition query_user_by_email_or_username (email username : string)
  : M (option User.t) :=
  d <- get_pending ;;
  ret (head (filter (fun u => User.email u = email \/ User.username u = username)
                    (users d))).

(** [db.add(user)] *)
Definition db_add_user (username email hashed_password : string) : M User.t :=
  d <- get_pending ;;
  let u := User.mk (user_id_default d) username email hashed_password
                   is_active_default in
  set_pending (with_user d u) ;;;
  ret u.

Definition register (user_data : UserRegister) : M TokenResponse :=
  (* Check if user exists *)
  existing_user <-
    query_user_by_email_or_username (reg_email user_data)
                                    (reg_username user_data) ;;
  match existing_user with
  | Some _ => raise user_already_exists
  | None =>
      (* Create new user *)
      let hashed_password := hash_password (reg_password user_data) in
      user <- db_add_user (reg_username user_data) (reg_email user_data)
                          hashed_password ;;
      db_commit ;;;
      (* Generate token *)
      access_token <-
        create_access_token utcnow SECRET_KEY sign
          {[ "sub" := ClaimStr (str_int (User.id user)) ]} ;;
      ret (mkTokenResponse access_token "bearer" (User.id user))
  end.

End Registration.

(** ** gen_ai_service.py: [GenAIService.stream_response]

    The backend asked to stream either refuses the call or hands back an
    iterator: the texts of the chunks it delivers and, when the iteration
    breaks off, the exception that ends it. *)

Record BackendStream := mkStream {
  chunks : list string;
  failure : option exn
}.

(** The run of a generator: what it yielded, in order, and the exception
    that ended it, if any. *)
Record Yielded := mkYielded {
  yielded : list string;
  raised : option exn
}.

(** [for chunk in response: if chunk.text: yield chunk.text] *)
Fixpoint yield_texts (cs : list string) : list string :=
  match cs with
  | [] => []
  | text :: rest =>
      match text with
      | EmptyString => yield_texts rest
      | String _ _ => text :: yield_texts rest
      end
  end.

Definition streaming_error (e : exn) : exn :=
  Exception ("Error streaming response: " +:+ str_exn e).

Definition stream_response
    (generate_content_stream : string -> GenerationConfig -> result BackendStream)
    (messages : list GenAIService.message)
    (temperature : QArith_base.Q) (max_tokens : option Z)
  : Session -> Yielded * Session :=
  fun s =>
    let w := world s in
    let prompt := GenAIService._format_messages_for_gemini messages in
    let cfg :=
      mkConfig temperature (GenAIService.max_tokens_or max_tokens 1024) in
    (match generate_content_stream prompt cfg with
     | Raise e => mkYielded [] (Some (streaming_error e))
     | Ok response =>
         mkYielded (yield_texts (chunks response))
                   (option_map streaming_error (failure response))
     end,
     mkSession (mkWorld (store w) (ticks w) (sent w ++ [mkCall prompt cfg]))
               (pending s) (commits s)).

(** ** More vocabulary *)

(** In a list of rows, every assistant row comes right after a user row. *)
Fixpoint replies_follow_user (after_user : bool) (rows : list Message.t)
  : bool :=
  match rows with
  | [] => true
  | m :: rest =>
      if decide (Message.role m = "assistant") then
        after_user && replies_follow_user false rest
      else replies_follow_user (bool_decide (Message.role m = "user")) rest
  end.

(** Every conversation's rows have that shape. *)
Definition paired (d : DB) : Prop :=
  forall cid, replies_follow_user false (rows_of cid d) = true.

(** E-mail addresses and user names are unique among the users. *)
Definition unique_identities (d : DB) : Prop :=
  NoDup (map User.email (users d)) /\ NoDup (map User.username (users d)).

(** Concatenation of text fragments. *)
Definition concat_texts (l : list string) : string :=
  foldr String.append "" l.

(** ** main.py: the routes of the application

    [create_app] mounts the two routers; a request is one of their routes
    with its arguments, the user id being the one [verify_token] returned. *)

Inductive request :=
| POST_auth_register (user_data : UserRegister)
| POST_auth_login (user_data : UserLogin)
| POST_chat_conversations (data : ConversationCreate) (user_id : Z)
| GET_chat_conversations (user_id : Z)
| GET_chat_conversation (conversation_id user_id : Z)
| POST_chat_messages (conversation_id : Z) (chat_request : ChatRequest)
                     (user_id : Z)
| DELETE_chat_conversation (conversation_id user_id : Z).

Section App.

Variable utcnow : nat -> Z.
Variable generate_content : string -> GenerationConfig -> result string.
Variable SECRET_KEY : string.
Variable sign : string -> gmap string claim -> string.
Variable verify_password : string -> string -> bool.
Variable hash_password : string -> string.
Variable user_id_default : DB -> Z.
Variable is_active_default : bool.

(** The world after the application served one request. *)
Definition handle (r : request) (w : World) : World :=
  match r with
  | POST_auth_register user_data =>
      (serve (register utcnow SECRET_KEY sign hash_password user_id_default
                is_active_default user_data) w).2
  | POST_auth_login user_data =>
      (serve (login utcnow SECRET_KEY sign verify_password user_data) w).2
  | POST_chat_conversations data user_id =>
      (serve (create_conversation utcnow data user_id) w).2
  | GET_chat_conversations user_id =>
      (serve (list_conversations user_id) w).2
  | GET_chat_conversation conversation_id user_id =>
      (serve (get_conversation conversation_id user_id) w).2
  | POST_chat_messages conversation_id chat_request user_id =>
      (serve (send_message utcnow generate_content conversation_id
                chat_request user_id) w).2
  | DELETE_chat_conversation conversation_id user_id =>
      (serve (delete_conversation conversation_id user_id) w).2
  end.

(** The world after a sequence of requests, served one after the other. *)
Definition handle_all (rs : list request) (w : World) : World :=
  foldl (fun w r => handle r w) w rs.

End App.

(** The store [init_db] creates: empty tables, sequences at 1. *)
Definition empty_db : DB := mkDB [] [] [] 1 1.

(** Column defaults for the examples: the next user id is one more than
    the number of users; new users are active. *)
Definition count_user_id (d : DB) : Z := Z.of_nat (length (users d)) + 1.

Definition toy_hash (password : string) : string := "hash:" +:+ password.

(** The columns of a conversation no handler assigns after creation. *)
Definition same_identity (c c' : Conversation.t) : Prop :=
  Conversation.user_id c' = Conversation.user_id c
  /\ Conversation.title c' = Conversation.title c
  /\ Conversation.created_at c' = Conversation.created_at c.

(** In store [d] the conversation id of [c] still denotes [c], if it
    denotes anything, and will not be handed out again. *)
Definition still_denotes (c : Conversation.t) (d : DB) : Prop :=
  Conversation.id c < conversation_seq d
  /\ Forall (fun c' => Conversation.id c' = Conversation.id c ->
                       same_identity c c') (conversations d).

(** Every conversation's rows were stamped in table order. *)
Definition all_stamped (utcnow : nat -> Z) (w : World) : Prop :=
  forall cid, stamped_in_order utcnow w cid.

(** A clock that is set back between any two readings. *)
Definition backward_clock : nat -> Z := fun k => 1000 - Z.of_nat k.

(** ** The prompt in the words of the specification

    A history is a sequence of (role, content) pairs with role user or
    assistant; each turn is rendered "<Role>: <content>", the rendered
    turns are joined by line feeds, and the cue inviting the assistant's
    turn follows on a line of its own. *)

Module Role.
Inductive t := user | assistant.

(** The role as [send_message] stores it. *)
Definition name (r : t) : string :=
  match r with
  | user => "user"
  | assistant => "assistant"
  end.

(** The role as the prompt shows it. *)
Definition label (r : t) : string :=
  match r with
  | user => "User"
  | assistant => "Assistant"
  end.
End Role.

Definition line_feed : ascii := ascii_of_nat 10.

Fixpoint joined_by_line_feeds (lines : list string) : string :=
  match lines with
  | [] => ""
  | line :: rest =>
      match rest with
      | [] => line
      | _ :: _ => line +:+ String line_feed (joined_by_line_feeds rest)
      end
  end.

Definition specified_prompt (history : list (Role.t * string)) : string :=
  joined_by_line_feeds
    (map (fun t => Role.label t.1 +:+ ": " +:+ t.2) history)
  +:+ String line_feed "Assistant:".

(** The [dict] of a turn of such a history. *)
Definition message_of_role_turn (t : Role.t * string) : GenAIService.message :=
  {[ "role" := Role.name t.1; "content" := t.2 ]}.

(** Strings of ASCII characters. *)
Fixpoint ascii_only (s : string) : bool :=
  match s with
  | EmptyString => true
  | String c r => (N_of_ascii c <? 128)%N && ascii_only r
  end.

(** * Properties *)

(** ** Queries *)

Lemma head_filter_Some {A} (P : A -> Prop) `{!forall x, Decision (P x)}
    (l : list A) (x : A) :
  head (filter P l) = Some x -> x ∈ l /\ P x.
Proof.
  intros Hx. apply head_Some_elem_of in Hx.
  by apply list_elem_of_filter in Hx as [HP Hin].
Qed.

Lemma head_filter_None {A} (P : A -> Prop) `{!forall x, Decision (P x)}
    (l : list A) :
  head (filter P l) = None <-> Forall (fun x => ~ P x) l.
Proof.
  induction l as [|y l IH]; simpl.
  - split; [constructor | done].
  - rewrite filter_cons. destruct (decide (P y)) as [Hy|Hy]; simpl.
    + split; [done | intros HF; by inversion HF].
    + rewrite IH. split.
      * by constructor.
      * intros HF; by inversion HF.
Qed.

Lemma owned_conversation_Some d cid uid c :
  owned_conversation d cid uid = Some c ->
  c ∈ conversations d /\ Conversation.id c = cid /\ Conversation.user_id c = uid.
Proof.
  intros H. apply head_filter_Some in H. tauto.
Qed.

(** With unique primary keys, a conversation owned by one user is found by
    no other user's ownership check. *)
Lemma owned_conversation_other d c uid :
  NoDup (map Conversation.id (conversations d)) ->
  c ∈ conversations d ->
  Conversation.user_id c <> uid ->
  owned_conversation d (Conversation.id c) uid = None.
Proof.
  intros Hnd Hin Hne. apply head_filter_None.
  apply Forall_forall. intros c' Hin' [Hid Huid].
  assert (c' = c) as ->; [|done].
  clear Hne Huid. revert Hnd Hin Hin' Hid.
  induction (conversations d) as [|x l IH]; simpl; intros Hnd Hin Hin' Hid.
  - by apply elem_of_nil in Hin.
  - apply NoDup_cons in Hnd as [Hx Hnd].
    apply elem_of_cons in Hin as [->|Hin];
      apply elem_of_cons in Hin' as [->|Hin']; try done.
    + exfalso. apply Hx. rewrite <- Hid. by apply list_elem_of_fmap_2.
    + exfalso. apply Hx. rewrite Hid. by apply list_elem_of_fmap_2.
    + by apply IH.
Qed.

Lemma owned_conversation_absent d cid uid :
  Forall (fun c => Conversation.id c <> cid) (conversations d) ->
  owned_conversation d cid uid = None.
Proof.
  intros H. apply head_filter_None.
  eapply Forall_impl; [exact H|]. simpl. tauto.
Qed.

(** ** What one request does to the world *)

Section Requests.

Variable utcnow : nat -> Z.
Variable generate_content : string -> GenerationConfig -> result string.

Local Abbreviation send_message := (send_message utcnow generate_content).
Local Abbreviation create_conversation := (create_conversation utcnow).

Local Abbreviation user_turn := (user_turn utcnow).
Local Abbreviation assistant_turn := (assistant_turn utcnow).

Lemma get_conversation_serve w cid uid :
  serve (get_conversation cid uid) w =
  match owned_conversation (store w) cid uid with
  | None => (Raise conversation_not_found, w)
  | Some c =>
      (Ok (mkConversationDetailResponse (ConversationResponse_of c)
             (map MessageResponse_of (messages_of (Conversation.id c) (store w)))),
       w)
  end.
Proof.
  unfold serve, get_conversation, owned_conversation, bind, query_conversation,
    get_pending, ret; simpl.
  destruct (head _); simpl; by destruct w.
Qed.

Lemma delete_conversation_serve w cid uid :
  serve (delete_conversation cid uid) w =
  match owned_conversation (store w) cid uid with
  | None => (Raise conversation_not_found, w)
  | Some c =>
      (Ok "Conversation deleted successfully",
       mkWorld (without_conversation (store w) (Conversation.id c))
               (ticks w) (sent w))
  end.
Proof.
  unfold serve, delete_conversation, owned_conversation, bind,
    query_conversation, get_pending, ret; simpl.
  destruct (head _); simpl; by destruct w.
Qed.

Lemma send_message_serve w cid req uid :
  serve (send_message cid req uid) w =
  match owned_conversation (store w) cid uid with
  | None => (Raise conversation_not_found, w)
  | Some c =>
      let um := user_turn w cid req in
      let d1 := with_message (store w) um in
      let call := mkCall (prompt_of d1 cid) default_config in
      match generate_content (prompt_of d1 cid) default_config with
      | Raise e =>
          (Raise (HTTPException HTTP_500_INTERNAL_SERVER_ERROR
                    ("Error generating response: "
                     +:+ "Error generating response: " +:+ str_exn e)),
           mkWorld d1 (S (ticks w)) (sent w ++ [call]))
      | Ok text =>
          let am := assistant_turn w cid text in
          let d2 := with_message d1 am in
          (Ok (mkChatResponse text (Message.id am)),
           mkWorld (touched d2 (Conversation.id c) (utcnow (S (S (ticks w)))))
                   (S (S (S (ticks w)))) (sent w ++ [call]))
      end
  end.
Proof.
  unfold serve, send_message, owned_conversation, bind, query_conversation,
    get_pending, ret; simpl.
  destruct (head _) as [c|]; simpl; [|by destruct w].
  unfold prompt_of, default_config, generate_response, try_except, bind,
    model_generate_content; simpl.
  destruct (generate_content _ _) as [text|e]; reflexivity.
Qed.

Lemma create_conversation_serve w data uid :
  serve (create_conversation data uid) w =
  match user_row (store w) uid with
  | None => (Raise user_not_found, w)
  | Some _ =>
      let c := Conversation.mk (conversation_seq (store w)) uid (cc_title data)
                               (utcnow (ticks w)) (utcnow (ticks w)) in
      (Ok (ConversationResponse_of c),
       mkWorld (with_conversation (store w) c) (S (ticks w)) (sent w))
  end.
Proof.
  unfold serve, create_conversation, user_row, bind, query_user_by_id,
    get_pending, ret; simpl.
  destruct (head _); simpl; by destruct w.
Qed.

End Requests.

(** ** Partial failure: the generation call fails after the user turn *)

(** C1.  When the ownership check passes (so the user's message is
    persisted) and the generation backend then fails, [send_message] raises
    a 500 "Error generating response" to the caller; the store afterwards
    is the one before plus exactly the new user message: the user message
    is not rolled back, no assistant message is added, no conversation row
    changes. *)
Theorem send_message_generation_failure
    (utcnow : nat -> Z)
    (generate_content : string -> GenerationConfig -> result string)
    (w : World) (cid uid : Z) (req : ChatRequest) (c : Conversation.t)
    (e : exn) :
  owned_conversation (store w) cid uid = Some c ->
  generate_content
    (prompt_of (with_message (store w) (user_turn utcnow w cid req)) cid)
    default_config = Raise e ->
  exists w',
    serve (send_message utcnow generate_content cid req uid) w =
      (Raise (HTTPException HTTP_500_INTERNAL_SERVER_ERROR
                ("Error generating response: "
                 +:+ "Error generating response: " +:+ str_exn e)), w')
    /\ messages (store w') = messages (store w) ++ [user_turn utcnow w cid req]
    /\ Message.role (user_turn utcnow w cid req) = "user"
    /\ Message.content (user_turn utcnow w cid req) = message req
    /\ Message.conversation_id (user_turn utcnow w cid req) = cid
    /\ filter (fun m => Message.role m = "assistant") (messages (store w')) =
       filter (fun m => Message.role m = "assistant") (messages (store w))
    /\ conversations (store w') = conversations (store w)
    /\ users (store w') = users (store w).
Proof.
  intros Hown Hfail.
  rewrite send_message_serve, Hown. cbv zeta. rewrite Hfail.
  eexists; split; [reflexivity|]. simpl.
  repeat split.
  rewrite filter_app, filter_cons, filter_nil.
  case_decide as Hrole; [by simpl in Hrole|]. by rewrite app_nil_r.
Qed.

Lemma send_message_generation_failure_witness :
  exists w',
    serve (send_message clock0 failing_backend 1 (mkChatRequest 1 "hi") 1) world0 =
      (Raise (HTTPException 500
         "Error generating response: Error generating response: quota exceeded"),
       w')
    /\ messages (store w') = [Message.mk 1 1 "user" "hi" 1000].
Proof.
  destruct (send_message_generation_failure clock0 failing_backend world0 1 1
              (mkChatRequest 1 "hi") trip (Exception "quota exceeded")
              eq_refl eq_refl) as (w' & Hr & Hm & _).
  exists w'. split; [exact Hr | exact Hm].
Defined.

(** The request after a failed one finds the orphan user turn in place and
    appends only its own pair. *)
Lemma send_message_after_failure
    (utcnow : nat -> Z)
    (generate_content : string -> GenerationConfig -> result string)
    (w w1 w2 : World) (cid uid : Z) (req req' : ChatRequest)
    (e : exn) (resp : ChatResponse) :
  serve (send_message utcnow generate_content cid req uid) w
    = (Raise e, w1) ->
  e <> conversation_not_found ->
  serve (send_message utcnow generate_content cid req' uid) w1
    = (Ok resp, w2) ->
  messages (store w2) =
    messages (store w) ++ [user_turn utcnow w cid req]
      ++ [user_turn utcnow w1 cid req';
          assistant_turn utcnow w1 cid (assistant_message resp)].
Proof.
  rewrite !send_message_serve.
  destruct (owned_conversation (store w) cid uid) as [c|]; cbv zeta.
  - destruct (generate_content _ _) as [t|e0]; [discriminate|].
    intros [= <- <-] _. simpl.
    destruct (owned_conversation _ cid uid) as [c1|]; [|discriminate].
    cbv zeta.
    destruct (generate_content _ _) as [t|e1]; [|discriminate].
    intros [= <- <-]. simpl. by rewrite <- !app_assoc.
  - intros [= <- <-] He. by destruct He.
Qed.

(** ** Ownership isolation *)

(** C3.  For users A <> B and a conversation C owned by A, B's
    [get_conversation], [send_message] and [delete_conversation] on C each
    raise 404 "Conversation not found" and leave the world as it was; the
    same exception, with the world equally untouched, is what B gets for an
    id no conversation has, so the two cases cannot be told apart. *)
Theorem ownership_isolation
    (utcnow : nat -> Z)
    (generate_content : string -> GenerationConfig -> result string)
    (w : World) (a b : Z) (c : Conversation.t) (req : ChatRequest)
    (absent : Z) :
  a <> b ->
  NoDup (map Conversation.id (conversations (store w))) ->
  c ∈ conversations (store w) ->
  Conversation.user_id c = a ->
  Forall (fun c' => Conversation.id c' <> absent) (conversations (store w)) ->
  let C := Conversation.id c in
  let get := get_conversation in
  let send := fun cid => send_message utcnow generate_content cid req in
  let delete := delete_conversation in
  serve (get C b) w = (Raise conversation_not_found, w)
  /\ serve (send C b) w = (Raise conversation_not_found, w)
  /\ serve (delete C b) w = (Raise conversation_not_found, w)
  /\ serve (get C b) w = serve (get absent b) w
  /\ serve (send C b) w = serve (send absent b) w
  /\ serve (delete C b) w = serve (delete absent b) w.
Proof.
  intros Hab Hnd Hin Hown Habs. cbv zeta.
  rewrite !get_conversation_serve, !send_message_serve,
    !delete_conversation_serve.
  rewrite (owned_conversation_other (store w) c b) by (done || congruence).
  rewrite (owned_conversation_absent (store w) absent b) by done.
  done.
Qed.

Lemma ownership_isolation_witness :
  serve (get_conversation 1 2) world0 = (Raise conversation_not_found, world0)
  /\ serve (send_message clock0 hello_backend 1 (mkChatRequest 1 "hi") 2) world0
     = (Raise conversation_not_found, world0)
  /\ serve (delete_conversation 1 2) world0
     = (Raise conversation_not_found, world0)
  /\ serve (get_conversation 1 2) world0 = serve (get_conversation 5 2) world0.
Proof.
  assert (Hin : trip ∈ conversations (store world0)) by (left).
  assert (Hnd : NoDup (map Conversation.id (conversations (store world0)))).
  { simpl. apply NoDup_cons. split; [|apply NoDup_singleton].
    intros Hin'. apply list_elem_of_singleton in Hin'. lia. }
  assert (Habs : Forall (fun c' => Conversation.id c' <> 5)
                        (conversations (store world0))).
  { repeat constructor; simpl; lia. }
  destruct (ownership_isolation clock0 hello_backend world0 1 2 trip
              (mkChatRequest 1 "hi") 5 ltac:(lia) Hnd Hin eq_refl Habs)
    as (Hg & Hs & Hd & Hg' & _).
  repeat split; assumption.
Defined.

(** ** Ordering of the history *)

Lemma order_by_sorted {A} (key : A -> Z) (l : list A) :
  StronglySorted (fun x y => key x <= key y) l -> order_by key l = l.
Proof.
  induction 1 as [|x l Hl IH Hx]; [done|].
  simpl. fold (order_by key l). rewrite IH.
  destruct Hx as [|y l' Hxy _]; simpl; [done|].
  by rewrite (proj2 (Z.leb_le _ _) Hxy).
Qed.

Lemma order_by_Permutation {A} (key : A -> Z) (l : list A) :
  order_by key l ≡ₚ l.
Proof.
  assert (Hins : forall x k, insert_by key x k ≡ₚ x :: k).
  { intros x k. induction k as [|y k IH]; simpl; [done|].
    destruct (key x <=? key y); [done|]. rewrite IH. apply Permutation_swap. }
  induction l as [|x l IH]; simpl; [done|].
  fold (order_by key l). by rewrite Hins, IH.
Qed.

Lemma rows_of_with_message cid d m :
  rows_of cid (with_message d m) =
  rows_of cid d ++ (if decide (Message.conversation_id m = cid) then [m] else []).
Proof.
  unfold rows_of, with_message; simpl.
  by rewrite filter_app, filter_cons, filter_nil.
Qed.

Lemma rows_of_touched cid d cid' t :
  rows_of cid (touched d cid' t) = rows_of cid d.
Proof. reflexivity. Qed.

Lemma messages_of_stamped utcnow w cid :
  stamped_in_order utcnow w cid ->
  messages_of cid (store w) = rows_of cid (store w).
Proof. intros [Hs _]. by apply order_by_sorted. Qed.

Section Turns.

Variable utcnow : nat -> Z.
Variable generate_content : string -> GenerationConfig -> result string.

Local Abbreviation send_message := (send_message utcnow generate_content).
Local Abbreviation send_all := (send_all utcnow generate_content).
Local Abbreviation user_turn := (user_turn utcnow).
Local Abbreviation assistant_turn := (assistant_turn utcnow).

(** A successful request, read backwards. *)
Lemma send_message_Ok w cid req uid resp w' :
  serve (send_message cid req uid) w = (Ok resp, w') ->
  let um := user_turn w cid req in
  let am := assistant_turn w cid (assistant_message resp) in
  let d1 := with_message (store w) um in
  is_Some (owned_conversation (store w) cid uid)
  /\ generate_content (prompt_of d1 cid) default_config
     = Ok (assistant_message resp)
  /\ message_id resp = Message.id am
  /\ w' = mkWorld (touched (with_message d1 am) cid (utcnow (S (S (ticks w)))))
                  (S (S (S (ticks w))))
                  (sent w ++ [mkCall (prompt_of d1 cid) default_config]).
Proof.
  rewrite send_message_serve.
  destruct (owned_conversation (store w) cid uid) as [c|] eqn:Hown;
    [|discriminate].
  apply owned_conversation_Some in Hown as (_ & Hid & _).
  cbv zeta. destruct (generate_content _ _) as [text|e]; [|discriminate].
  intros [= <- <-]. simpl. by rewrite Hid.
Qed.

Lemma touched_touch_only d cid t :
  Forall2 (touch_only cid t) (conversations d) (conversations (touched d cid t)).
Proof.
  unfold touched; simpl. apply Forall2_fmap_r, Forall_Forall2_diag.
  apply Forall_forall. intros c _. unfold touch_only.
  simpl. case_decide; simpl; by repeat split.
Qed.

(** A successful request keeps the conversation stamped in order. *)
Lemma send_message_stamped w cid req uid resp w' :
  monotone utcnow ->
  stamped_in_order utcnow w cid ->
  serve (send_message cid req uid) w = (Ok resp, w') ->
  stamped_in_order utcnow w' cid
  /\ rows_of cid (store w') =
     rows_of cid (store w)
       ++ [user_turn w cid req; assistant_turn w cid (assistant_message resp)].
Proof.
  intros Hmono [Hsorted Hbound] Hok.
  apply send_message_Ok in Hok as (_ & _ & _ & ->). simpl.
  assert (Hrows :
    rows_of cid (touched (with_message (with_message (store w)
      (user_turn w cid req)) (assistant_turn w cid (assistant_message resp)))
      cid (utcnow (S (S (ticks w))))) =
    rows_of cid (store w)
      ++ [user_turn w cid req; assistant_turn w cid (assistant_message resp)]).
  { rewrite rows_of_touched, !rows_of_with_message. simpl.
    rewrite !decide_True by done. by rewrite <- app_assoc. }
  split; [|exact Hrows].
  unfold stamped_in_order. simpl. rewrite Hrows.
  pose proof (Hmono (ticks w) (S (ticks w)) ltac:(lia)) as H01.
  pose proof (Hmono (S (ticks w)) (S (S (S (ticks w)))) ltac:(lia)) as H13.
  split.
  - apply StronglySorted_app. split_and!.
    + intros m1 m2 Hm1 Hm2.
      pose proof (proj1 (Forall_forall _ _) Hbound m1 Hm1) as Hb. simpl in Hb.
      apply elem_of_cons in Hm2 as [->|Hm2]; simpl; [lia|].
      apply list_elem_of_singleton in Hm2 as ->. simpl. lia.
    + done.
    + repeat constructor. simpl. lia.
  - apply Forall_app. split.
    + eapply Forall_impl; [exact Hbound|]. simpl. intros m Hm. lia.
    + repeat constructor; simpl; lia.
Qed.

Lemma send_all_stamped reqs : forall w cid uid resps w',
  monotone utcnow ->
  stamped_in_order utcnow w cid ->
  send_all cid uid reqs w = (map Ok resps, w') ->
  stamped_in_order utcnow w' cid
  /\ map turn (rows_of cid (store w')) =
     map turn (rows_of cid (store w)) ++ pairs_of reqs resps.
Proof.
  induction reqs as [|req reqs IH]; intros w cid uid resps w' Hmono Hinv; simpl.
  - destruct resps; [|discriminate]. intros [= <-]. by rewrite app_nil_r.
  - destruct (serve (send_message cid req uid) w) as [r w1] eqn:H1.
    destruct (send_all cid uid reqs w1) as [rs w2] eqn:H2.
    destruct resps as [|resp resps]; [discriminate|]. simpl.
    intros [= -> -> ->].
    destruct (send_message_stamped _ _ _ _ _ _ Hmono Hinv H1) as [Hinv1 Hrows1].
    destruct (IH _ _ _ _ _ Hmono Hinv1 H2) as [Hinv2 Hrows2].
    split; [done|].
    rewrite Hrows2, Hrows1, map_app, <- app_assoc. done.
Qed.

Lemma pairs_of_length reqs : forall resps,
  length resps = length reqs ->
  length (pairs_of reqs resps) = (2 * length reqs)%nat.
Proof.
  induction reqs as [|req reqs IH]; intros [|resp resps]; simpl; try done.
  intros [= Hlen]. rewrite (IH _ Hlen). lia.
Qed.

Lemma send_all_length reqs : forall cid uid w,
  length (send_all cid uid reqs w).1 = length reqs.
Proof.
  induction reqs as [|req reqs IH]; intros cid uid w; simpl; [done|].
  destruct (serve _ w) as [r w1]. specialize (IH cid uid w1).
  destruct (send_all cid uid reqs w1) as [rs w2]. simpl in *. by rewrite IH.
Qed.

End Turns.




(** ** Cascade delete *)

Lemma without_conversation_no_orphans d cid :
  no_orphans d -> no_orphans (without_conversation d cid).
Proof.
  unfold no_orphans, without_conversation; simpl. intros Hno.
  apply Forall_forall. intros m Hm.
  apply list_elem_of_filter in Hm as [Hne Hm].
  destruct (proj1 (Forall_forall _ _) Hno m Hm) as (c & Hc & Hid).
  exists c. split; [|done].
  apply list_elem_of_filter. split; [congruence | done].
Qed.

Lemma without_conversation_absent d cid :
  Forall (fun c => Conversation.id c <> cid)
         (conversations (without_conversation d cid)).
Proof.
  apply Forall_forall. intros c Hc. by apply list_elem_of_filter in Hc as [? _].
Qed.

Lemma delete_conversation_commits (w : World) (cid uid : Z) :
  durable_states (delete_conversation cid uid) w =
  match owned_conversation (store w) cid uid with
  | None => []
  | Some c => [without_conversation (store w) (Conversation.id c)]
  end.
Proof.
  unfold durable_states, delete_conversation, owned_conversation, bind,
    query_conversation, get_pending, ret; simpl.
  by destruct (head _).
Qed.

(** C6.  For a conversation C the acting user owns, [delete_conversation]
    succeeds and makes exactly one store durable, the one with no
    conversation of C's id and no message of C, every other conversation
    and message being kept: the conversation and its messages go in one
    commit, with no durable state in between.  A store without orphan
    messages stays without orphan messages; the owner's next
    [get_conversation] on C raises 404 "Conversation not found".  Whoever
    asks, the request commits either nothing or that one store, so the
    store after it is either the one before or the one with C and all its
    messages removed. *)
Theorem delete_conversation_cascade
    (w : World) (cid uid : Z) (c : Conversation.t) :
  owned_conversation (store w) cid uid = Some c ->
  exists w',
    serve (delete_conversation cid uid) w =
      (Ok "Conversation deleted successfully", w')
    /\ store w' = without_conversation (store w) cid
    /\ durable_states (delete_conversation cid uid) w
       = [without_conversation (store w) cid]
    /\ Forall (fun c' => Conversation.id c' <> cid) (conversations (store w'))
    /\ Forall (fun m => Message.conversation_id m <> cid) (messages (store w'))
    /\ (forall c', c' ∈ conversations (store w') <->
                   c' ∈ conversations (store w) /\ Conversation.id c' <> cid)
    /\ (forall m, m ∈ messages (store w') <->
                  m ∈ messages (store w) /\ Message.conversation_id m <> cid)
    /\ (no_orphans (store w) -> no_orphans (store w'))
    /\ serve (get_conversation cid uid) w' = (Raise conversation_not_found, w')
    /\ (forall uid',
          (durable_states (delete_conversation cid uid') w = []
           /\ store (serve (delete_conversation cid uid') w).2 = store w)
          \/ (durable_states (delete_conversation cid uid') w
              = [without_conversation (store w) cid]
              /\ store (serve (delete_conversation cid uid') w).2
                 = without_conversation (store w) cid)).
Proof.
  intros Hown.
  pose proof (owned_conversation_Some _ _ _ _ Hown) as (_ & Hid & _).
  rewrite delete_conversation_serve, delete_conversation_commits, Hown, Hid.
  eexists. split; [reflexivity|]. simpl.
  split_and!.
  - done.
  - done.
  - apply without_conversation_absent.
  - apply Forall_forall. intros m Hm.
    by apply list_elem_of_filter in Hm as [? _].
  - intros c'. rewrite list_elem_of_filter. tauto.
  - intros m. rewrite list_elem_of_filter. tauto.
  - apply without_conversation_no_orphans.
  - rewrite get_conversation_serve. simpl.
    by rewrite (owned_conversation_absent _ cid uid)
      by apply without_conversation_absent.
  - intros uid'.
    rewrite delete_conversation_serve, delete_conversation_commits.
    destruct (owned_conversation (store w) cid uid') as [c'|] eqn:Hown';
      [right | by left].
    apply owned_conversation_Some in Hown' as (_ & Hid' & _).
    simpl. by rewrite Hid'.
Qed.

Lemma delete_conversation_cascade_witness :
  let w1 := (serve (send_message clock0 hello_backend 1
                      (mkChatRequest 1 "hi") 1) world0).2 in
  exists w',
    serve (delete_conversation 1 1) w1 =
      (Ok "Conversation deleted successfully", w')
    /\ conversations (store w') = [errands]
    /\ messages (store w') = []
    /\ durable_states (delete_conversation 1 1) w1 = [store w']
    /\ serve (get_conversation 1 1) w' = (Raise conversation_not_found, w').
Proof.
  cbv zeta.
  set (w1 := (serve (send_message clock0 hello_backend 1
                       (mkChatRequest 1 "hi") 1) world0).2).
  assert (Hown : owned_conversation (store w1) 1 1
                 = Some (Conversation.mk 1 1 "trip" 990 1002))
    by (vm_compute; reflexivity).
  destruct (delete_conversation_cascade w1 1 1 _ Hown)
    as (w' & Hr & Hs & Hc & _ & _ & _ & _ & _ & Hg & _).
  exists w'.
  split_and!; [exact Hr | | | by rewrite Hc, Hs | exact Hg].
  - rewrite Hs. vm_compute. reflexivity.
  - rewrite Hs. vm_compute. reflexivity.
Defined.

(** ** Creating a conversation *)

(** C7 as stated fails: user 2 exists with its active flag false, and
    [create_conversation] for user 2 succeeds and stores a conversation. *)
Lemma create_conversation_inactive_user :
  ~ references_active_user (store world0) 2
  /\ exists w',
       serve (create_conversation clock0 ConversationCreate_default 2) world0 =
         (Ok (mkConversationResponse 3 "New Conversation" 1000 1000), w')
       /\ conversations (store w') =
            [trip; errands; Conversation.mk 3 2 "New Conversation" 1000 1000].
Proof.
  split.
  - intros (u & Hin & Hid & Hact). simpl in Hin.
    apply elem_of_cons in Hin as [->|Hin]; [discriminate Hid|].
    apply list_elem_of_singleton in Hin as ->. discriminate Hact.
  - eexists. split; reflexivity.
Qed.

(** C7, amended.  [create_conversation] checks that a user row with the
    given id exists and nothing else: when there is none it raises 404
    "User not found" and the world is unchanged; when there is one, active
    or not, it stores and returns a new conversation of that user with the
    requested title and both timestamps set to the current time. *)
Theorem create_conversation_checks_existence
    (utcnow : nat -> Z) (w : World) (data : ConversationCreate) (uid : Z) :
  (user_row (store w) uid = None ->
     serve (create_conversation utcnow data uid) w = (Raise user_not_found, w))
  /\ (forall u, user_row (store w) uid = Some u ->
        let t := utcnow (ticks w) in
        let c := Conversation.mk (conversation_seq (store w)) uid
                                 (cc_title data) t t in
        exists w',
          serve (create_conversation utcnow data uid) w =
            (Ok (mkConversationResponse (conversation_seq (store w))
                   (cc_title data) t t), w')
          /\ conversations (store w') = conversations (store w) ++ [c]
          /\ messages (store w') = messages (store w)
          /\ users (store w') = users (store w)).
Proof.
  rewrite create_conversation_serve. split.
  - by intros ->.
  - intros u ->. cbv zeta. eexists. split; [reflexivity|]. by simpl.
Qed.

Lemma create_conversation_checks_existence_witness :
  serve (create_conversation clock0 ConversationCreate_default 7) world0
    = (Raise user_not_found, world0)
  /\ exists w',
       serve (create_conversation clock0 (mkConversationCreate "trip 2") 1) world0
         = (Ok (mkConversationResponse 3 "trip 2" 1000 1000), w')
       /\ conversations (store w') =
            [trip; errands; Conversation.mk 3 1 "trip 2" 1000 1000].
Proof.
  split.
  - exact (proj1 (create_conversation_checks_existence clock0 world0
                    ConversationCreate_default 7) eq_refl).
  - destruct (proj2 (create_conversation_checks_existence clock0 world0
                       (mkConversationCreate "trip 2") 1) ana eq_refl)
      as (w' & Hr & Hc & _).
    exists w'. split; [exact Hr | exact Hc].
Defined.

(** ** Empty message text *)

(** C8 as stated fails: a request with the empty text on an owned
    conversation succeeds, and the empty user message is stored. *)
Lemma send_message_empty_text_accepted :
  exists w',
    serve (send_message clock0 hello_backend 1 (mkChatRequest 1 "") 1) world0 =
      (Ok (mkChatResponse "hello" 2), w')
    /\ messages (store w') =
         [Message.mk 1 1 "user" "" 1000; Message.mk 2 1 "assistant" "hello" 1001].
Proof.
  exists (serve (send_message clock0 hello_backend 1 (mkChatRequest 1 "") 1)
            world0).2.
  split; vm_compute; reflexivity.
Qed.

(** C8, amended.  [send_message] does not look at the message text: with
    the empty text on a conversation the caller owns, the user message with
    empty content is persisted, the backend is called, and the request
    ends as any other does, with the generated text or with the 500 of a
    failed generation. *)
Theorem send_message_empty_text
    (utcnow : nat -> Z)
    (generate_content : string -> GenerationConfig -> result string)
    (w : World) (cid uid body_id : Z) (c : Conversation.t) :
  owned_conversation (store w) cid uid = Some c ->
  let req := mkChatRequest body_id "" in
  let um := user_turn utcnow w cid req in
  exists r w' rest,
    serve (send_message utcnow generate_content cid req uid) w = (r, w')
    /\ Message.content um = ""
    /\ messages (store w') = messages (store w) ++ um :: rest
    /\ sent w' = sent w ++ [mkCall (prompt_of (with_message (store w) um) cid)
                                   default_config]
    /\ ((exists text, r = Ok (mkChatResponse text (message_seq (store w) + 1))
                      /\ rest = [assistant_turn utcnow w cid text])
        \/ (exists detail,
              r = Raise (HTTPException HTTP_500_INTERNAL_SERVER_ERROR detail)
              /\ rest = [])).
Proof.
  intros Hown req um. rewrite send_message_serve, Hown. cbv zeta.
  fold req. fold um.
  destruct (generate_content _ _) as [text|e].
  - exists (Ok (mkChatResponse text (message_seq (store w) + 1))).
    eexists. exists [assistant_turn utcnow w cid text].
    split; [reflexivity|]. simpl. split_and!; try done.
    + by rewrite <- app_assoc.
    + left. by exists text.
  - eexists. eexists. exists []. split; [reflexivity|]. simpl.
    split_and!; try done. right. by eexists.
Qed.

Lemma send_message_empty_text_witness :
  exists r w' rest,
    serve (send_message clock0 failing_backend 1 (mkChatRequest 1 "") 1) world0
      = (r, w')
    /\ messages (store w') = Message.mk 1 1 "user" "" 1000 :: rest.
Proof.
  destruct (send_message_empty_text clock0 failing_backend world0 1 1 1 trip
              eq_refl) as (r & w' & rest & Hr & _ & Hm & _).
  exists r, w', rest. split; [exact Hr | exact Hm].
Defined.

(** ** The conversation id of the request body *)



(** ** The generation client *)

Lemma format_turn_message_of_turn (t : string * string) :
  GenAIService.format_turn (message_of_turn t) = rendered t.
Proof.
  unfold GenAIService.format_turn, message_of_turn, rendered.
  rewrite lookup_insert_eq, lookup_insert_ne by done.
  by rewrite lookup_singleton_eq.
Qed.

Lemma history_entry_message_of_turn (m : Message.t) :
  history_entry m = message_of_turn (turn m).
Proof. reflexivity. Qed.

Lemma join_joined_by_line_feeds (lines : list string) :
  join newline lines = joined_by_line_feeds lines.
Proof.
  induction lines as [|line rest IH]; [done|].
  destruct rest as [|line' rest]; [done|].
  change (join newline (line :: line' :: rest))
    with (line +:+ newline +:+ join newline (line' :: rest)).
  by rewrite IH.
Qed.

Lemma format_turn_role (t : Role.t * string) :
  GenAIService.format_turn (message_of_role_turn t)
  = Role.label t.1 +:+ ": " +:+ t.2.
Proof.
  unfold GenAIService.format_turn, message_of_role_turn.
  rewrite lookup_insert_eq, lookup_insert_ne by done.
  rewrite lookup_singleton_eq. simpl. by destruct t as [[] c].
Qed.

(** C5.  For a history of (role, content) pairs, role user or assistant,
    the prompt is the one the specification words: each turn rendered
    "<Role>: <content>", the rendered turns joined by line feeds, then a
    line feed and the cue "Assistant:"; so three turns give four lines, and
    a role written in another letter case is shown capitalized while the
    content is left as it is.  With its default parameters
    [generate_response] makes one call to the backend, with that prompt, at
    most 1024 output tokens and temperature 0.7, and when the backend
    answers with a text it returns that text unchanged. *)
Theorem generate_response_contract
    (generate_content : string -> GenerationConfig -> result string)
    (history : list (Role.t * string)) (s : Session) :
  let messages := map message_of_role_turn history in
  let prompt := specified_prompt history in
  let config := mkConfig (QArith_base.Qmake 7 10) 1024 in
  let out := generate_response generate_content messages
               GenAIService.default_temperature None s in
  GenAIService._format_messages_for_gemini messages = prompt
  /\ GenAIService._format_messages_for_gemini
       (map message_of_turn
          [("user", "hi"); ("assistant", "hello"); ("user", "bye")])
     = "User: hi
Assistant: hello
User: bye
Assistant:"
  /\ GenAIService._format_messages_for_gemini
       (map message_of_turn [("aSSISTANT", "Hi THERE")])
     = "Assistant: Hi THERE
Assistant:"
  /\ GenAIService._format_messages_for_gemini [] = "
Assistant:"
  /\ sent (world out.2) = sent (world s) ++ [mkCall prompt config]
  /\ store (world out.2) = store (world s)
  /\ pending out.2 = pending s
  /\ (forall text, generate_content prompt config = Ok text -> out.1 = Ok text)
  /\ (forall e, generate_content prompt config = Raise e ->
        out.1 = Raise (Exception ("Error generating response: " +:+ str_exn e))).
Proof.
  cbv zeta.
  assert (Hprompt :
    GenAIService._format_messages_for_gemini (map message_of_role_turn history)
    = specified_prompt history).
  { unfold GenAIService._format_messages_for_gemini, specified_prompt.
    rewrite map_map.
    rewrite (map_ext _ (fun t => Role.label t.1 +:+ ": " +:+ t.2)
               format_turn_role).
    by rewrite join_joined_by_line_feeds. }
  split; [exact Hprompt|].
  split; [vm_compute; reflexivity|].
  split; [vm_compute; reflexivity|].
  split; [vm_compute; reflexivity|].
  unfold generate_response, try_except, bind, model_generate_content, ret.
  rewrite Hprompt. simpl GenAIService.max_tokens_or.
  unfold GenAIService.default_temperature.
  destruct (generate_content _ _) as [text|e] eqn:Hgen; simpl;
    split_and!; first [ done | by intros ? [= <-] ].
Qed.

Lemma generate_response_contract_witness :
  let s := SessionLocal world0 in
  let out := generate_response hello_backend
               (map message_of_role_turn
                  [(Role.user, "hi"); (Role.assistant, "hello");
                   (Role.user, "bye")])
               GenAIService.default_temperature None s in
  out.1 = Ok "hello"
  /\ sent (world out.2) =
       [mkCall "User: hi
Assistant: hello
User: bye
Assistant:" (mkConfig (QArith_base.Qmake 7 10) 1024)].
Proof.
  destruct (generate_response_contract hello_backend
              [(Role.user, "hi"); (Role.assistant, "hello"); (Role.user, "bye")]
              (SessionLocal world0))
    as (_ & _ & _ & _ & Hsent & _ & _ & Hok & _).
  split; [exact (Hok "hello" eq_refl) | exact Hsent].
Defined.

(** ** The credential service *)

(** [int(str(n)) == n] *)
Lemma int_str_str_int (z : Z) : int_str (str_int z) = Some z.
Proof.
  unfold int_str, str_int.
  rewrite DecimalString.NilZero.isi.
  - simpl. by rewrite DecimalZ.of_to.
  - destruct z as [|p|p]; simpl; [discriminate| |discriminate].
    intros [= Hnil]. by apply DecimalPos.Unsigned.to_uint_nonnil in Hnil.
  - destruct z as [|p|p]; simpl; [discriminate|discriminate|].
    intros [= Hnil]. by apply DecimalPos.Unsigned.to_uint_nonnil in Hnil.
Qed.

Section Credentials.

Variable utcnow : nat -> Z.
Variable SECRET_KEY : string.
Variable sign : string -> gmap string claim -> string.

Lemma issue_token_run (user_id : Z) (s : Session) :
  let t := utcnow (ticks (world s)) in
  let p : gmap string claim :=
    <[ "exp" := ClaimInt (t + settings.ACCESS_TOKEN_EXPIRE_MINUTES * 60) ]>
      {[ "sub" := ClaimStr (str_int user_id) ]} in
  issue_token utcnow SECRET_KEY sign user_id s =
    (Ok (mkToken p (sign SECRET_KEY p)),
     mkSession (mkWorld (store (world s)) (S (ticks (world s))) (sent (world s)))
               (pending s) (commits s)).
Proof. reflexivity. Qed.

Lemma decode_issued (user_id t : Z) :
  decode_payload
    (<[ "exp" := ClaimInt t ]> {[ "sub" := ClaimStr (str_int user_id) ]})
  = Some (user_id, t).
Proof.
  unfold decode_payload.
  rewrite lookup_insert_ne, lookup_singleton_eq, lookup_insert_eq by done.
  by rewrite int_str_str_int.
Qed.

Lemma verify_token_run (token : Token) (s : Session) :
  (verify_token utcnow SECRET_KEY sign token s).1 =
  if decide (signature token = sign SECRET_KEY (payload token)) then
    match decode_payload (payload token) with
    | None => Raise (AuthError Invalid)
    | Some (user_id, exp) =>
        if exp <? utcnow (ticks (world s)) then Raise (AuthError Expired)
        else Ok user_id
    end
  else Raise (AuthError Invalid).
Proof.
  unfold verify_token, bind, now, raise, ret.
  cbv beta iota zeta.
  destruct (decide _); [|done].
  destruct (decode_payload _) as [[u exp]|]; [|done].
  by destruct (exp <? _).
Qed.

End Credentials.

(** C4.  [issue_token] returns a token whose payload holds the user id as
    subject and, as expiry, the current time plus 24 hours, signed with the
    secret key.  [verify_token] raises [Invalid] when the signature does
    not verify or the payload is malformed, raises [Expired] when the
    signature verifies, the payload is well formed and its expiry has
    passed, and returns the user id of the payload otherwise; its outcome
    depends on the token and the clock only, not on the store.  A token
    just issued verifies to its user id up to its expiry and is [Expired]
    afterwards. *)
Theorem token_lifecycle
    (utcnow : nat -> Z) (SECRET_KEY : string)
    (sign : string -> gmap string claim -> string)
    (user_id : Z) (token : Token) (s : Session) :
  let t := utcnow (ticks (world s)) in
  let verify := fun tok s => (verify_token utcnow SECRET_KEY sign tok s).1 in
  (exists tok,
     (issue_token utcnow SECRET_KEY sign user_id s).1 = Ok tok
     /\ payload tok !! "sub" = Some (ClaimStr (str_int user_id))
     /\ payload tok !! "exp" = Some (ClaimInt (t + twenty_four_hours))
     /\ decode_payload (payload tok) = Some (user_id, t + twenty_four_hours)
     /\ signature tok = sign SECRET_KEY (payload tok)
     /\ (forall s', utcnow (ticks (world s')) <= t + twenty_four_hours ->
           verify tok s' = Ok user_id)
     /\ (forall s', t + twenty_four_hours < utcnow (ticks (world s')) ->
           verify tok s' = Raise (AuthError Expired)))
  /\ (signature token <> sign SECRET_KEY (payload token)
      \/ decode_payload (payload token) = None ->
      verify token s = Raise (AuthError Invalid))
  /\ (forall u exp,
        signature token = sign SECRET_KEY (payload token) ->
        decode_payload (payload token) = Some (u, exp) ->
        (exp < t -> verify token s = Raise (AuthError Expired))
        /\ (t <= exp -> verify token s = Ok u))
  /\ (forall s', ticks (world s') = ticks (world s) ->
        verify token s' = verify token s).
Proof.
  cbv zeta. split_and!.
  - rewrite issue_token_run. cbv zeta. eexists. split; [reflexivity|].
    change (settings.ACCESS_TOKEN_EXPIRE_MINUTES * 60) with twenty_four_hours.
    simpl payload. simpl signature.
    split_and!.
    + by rewrite lookup_insert_ne, lookup_singleton_eq.
    + by rewrite lookup_insert_eq.
    + apply decode_issued.
    + done.
    + intros s' Hle. rewrite verify_token_run. simpl payload. simpl signature.
      rewrite decide_True by done. rewrite decode_issued.
      by rewrite (proj2 (Z.ltb_ge _ _) Hle).
    + intros s' Hlt. rewrite verify_token_run. simpl payload. simpl signature.
      rewrite decide_True by done. rewrite decode_issued.
      by rewrite (proj2 (Z.ltb_lt _ _) Hlt).
  - rewrite verify_token_run. intros [Hsig|Hdec].
    + by rewrite decide_False.
    + rewrite Hdec. by destruct (decide _).
  - intros u exp Hsig Hdec. rewrite verify_token_run, Hdec.
    rewrite decide_True by done. split; intros Hexp.
    + by rewrite (proj2 (Z.ltb_lt _ _) Hexp).
    + by rewrite (proj2 (Z.ltb_ge _ _) Hexp).
  - intros s' Hticks. by rewrite !verify_token_run, Hticks.
Qed.

Lemma token_lifecycle_witness :
  exists tok,
    (issue_token clock0 "k" toy_sign 1 (SessionLocal world0)).1 = Ok tok
    /\ (verify_token clock0 "k" toy_sign tok (SessionLocal world0)).1 = Ok 1
    /\ (verify_token clock0 "k" toy_sign (mkToken ∅ "forged")
          (SessionLocal world0)).1 = Raise (AuthError Invalid).
Proof.
  destruct (token_lifecycle clock0 "k" toy_sign 1 (mkToken ∅ "forged")
              (SessionLocal world0))
    as ((tok & Hissue & _ & _ & _ & _ & Hverify & _) & Hinvalid & _).
  exists tok. split_and!.
  - exact Hissue.
  - apply Hverify. unfold twenty_four_hours. simpl. lia.
  - apply Hinvalid. right. reflexivity.
Defined.

(** ** Login *)

Section Login.

Variable utcnow : nat -> Z.
Variable SECRET_KEY : string.
Variable sign : string -> gmap string claim -> string.
Variable verify_password : string -> string -> bool.

Lemma login_serve (user_data : UserLogin) (w : World) :
  serve (login utcnow SECRET_KEY sign verify_password user_data) w =
  match head (filter (fun u => User.email u = login_email user_data)
                     (users (store w))) with
  | None => (Raise invalid_credentials, w)
  | Some user =>
      if verify_password (login_password user_data) (User.hashed_password user)
      then
        if User.is_active user then
          let p : gmap string claim :=
            <[ "exp" := ClaimInt (utcnow (ticks w) + twenty_four_hours) ]>
              {[ "sub" := ClaimStr (str_int (User.id user)) ]} in
          (Ok (mkTokenResponse (mkToken p (sign SECRET_KEY p)) "bearer"
                               (User.id user)),
           mkWorld (store w) (S (ticks w)) (sent w))
        else (Raise account_inactive, w)
      else (Raise invalid_credentials, w)
  end.
Proof.
  unfold serve, login, bind, query_user_by_email, get_pending, ret; simpl.
  destruct (head _) as [user|]; simpl; [|by destruct w].
  destruct (verify_password _ _); simpl; [|by destruct w].
  destruct (User.is_active user); simpl; by destruct w.
Qed.

End Login.

(** C9 as stated fails: an account whose password verifies but whose
    active flag is false is refused with 403 "User account is inactive",
    which is neither a success nor 401 "Invalid email or password". *)
Lemma login_inactive_account :
  let r := (serve (login clock0 "k" toy_sign plain_verify_password
                     (mkUserLogin "bob@x.com" "hunter2")) world0).1 in
  r = Raise (HTTPException 403 "User account is inactive")
  /\ r <> Raise invalid_credentials
  /\ forall resp, r <> Ok resp.
Proof.
  cbv zeta. rewrite login_serve.
  assert (Hrow :
    head (filter (fun u => User.email u = "bob@x.com") (users (store world0)))
    = Some bob) by reflexivity.
  simpl login_email. rewrite Hrow.
  assert (Hpw : plain_verify_password "hunter2" (User.hashed_password bob) = true)
    by reflexivity.
  simpl login_password. rewrite Hpw. simpl.
  split_and!; [done | discriminate | discriminate].
Qed.

(** C9, amended.  [login] has two failure kinds.  It raises 401 "Invalid
    email or password" when no user has the email or the password does not
    verify; it raises 403 "User account is inactive" when the password
    verifies and the active flag is false; otherwise it succeeds with a
    bearer token for the user's id, expiring in 24 hours, and that id.
    Nothing is written to the store in any case. *)
Theorem login_outcomes
    (utcnow : nat -> Z) (SECRET_KEY : string)
    (sign : string -> gmap string claim -> string)
    (verify_password : string -> string -> bool)
    (user_data : UserLogin) (w : World) :
  let out := serve (login utcnow SECRET_KEY sign verify_password user_data) w in
  let row := head (filter (fun u => User.email u = login_email user_data)
                          (users (store w))) in
  let password_ok := fun user =>
    verify_password (login_password user_data) (User.hashed_password user) in
  store out.2 = store w
  /\ (row = None -> out.1 = Raise invalid_credentials)
  /\ (forall user, row = Some user -> password_ok user = false ->
        out.1 = Raise invalid_credentials)
  /\ (forall user, row = Some user -> password_ok user = true ->
        User.is_active user = false -> out.1 = Raise account_inactive)
  /\ (forall user, row = Some user -> password_ok user = true ->
        User.is_active user = true ->
        exists tok,
          out.1 = Ok (mkTokenResponse tok "bearer" (User.id user))
          /\ decode_payload (payload tok) =
               Some (User.id user, utcnow (ticks w) + twenty_four_hours)
          /\ signature tok = sign SECRET_KEY (payload tok))
  /\ ((exists resp, out.1 = Ok resp)
      \/ out.1 = Raise invalid_credentials
      \/ out.1 = Raise account_inactive).
Proof.
  cbv zeta. rewrite login_serve.
  destruct (head _) as [user|]; [|split_and!; try done; by right; left].
  destruct (verify_password _ _) eqn:Hpw;
    [|split_and!; try done; try (by right; left);
      intros ? [= <-]; congruence].
  destruct (User.is_active user) eqn:Hact.
  - cbv zeta. split_and!; try done.
    + intros ? [= <-]; congruence.
    + intros ? [= <-]; congruence.
    + intros u [= <-] _ _. eexists. split; [reflexivity|].
      split; [apply decode_issued | done].
    + left. by eexists.
  - split_and!; try done.
    + intros ? [= <-]; congruence.
    + intros ? [= <-]; congruence.
    + by right; right.
Qed.

Lemma login_outcomes_witness :
  (serve (login clock0 "k" toy_sign plain_verify_password
            (mkUserLogin "nobody@x.com" "pw")) world0).1
    = Raise invalid_credentials
  /\ (serve (login clock0 "k" toy_sign plain_verify_password
               (mkUserLogin "ana@x.com" "wrong")) world0).1
       = Raise invalid_credentials
  /\ (serve (login clock0 "k" toy_sign plain_verify_password
               (mkUserLogin "bob@x.com" "hunter2")) world0).1
       = Raise account_inactive
  /\ exists tok,
       (serve (login clock0 "k" toy_sign plain_verify_password
                 (mkUserLogin "ana@x.com" "pw123")) world0).1
         = Ok (mkTokenResponse tok "bearer" 1).
Proof.
  split_and!.
  - destruct (login_outcomes clock0 "k" toy_sign plain_verify_password
                (mkUserLogin "nobody@x.com" "pw") world0) as (_ & H & _).
    exact (H eq_refl).
  - destruct (login_outcomes clock0 "k" toy_sign plain_verify_password
                (mkUserLogin "ana@x.com" "wrong") world0) as (_ & _ & H & _).
    exact (H ana eq_refl eq_refl).
  - destruct (login_outcomes clock0 "k" toy_sign plain_verify_password
                (mkUserLogin "bob@x.com" "hunter2") world0)
      as (_ & _ & _ & H & _).
    exact (H bob eq_refl eq_refl eq_refl).
  - destruct (login_outcomes clock0 "k" toy_sign plain_verify_password
                (mkUserLogin "ana@x.com" "pw123") world0)
      as (_ & _ & _ & _ & H & _).
    destruct (H ana eq_refl eq_refl eq_refl) as (tok & Hok & _).
    exists tok. exact Hok.
Defined.

(** ** Primary keys stay unique

    The hypothesis of the ownership theorem, unique conversation ids, is an
    invariant of the store: the empty store has it and every handler keeps
    it. *)

Lemma wf_db_empty us : wf_db (mkDB us [] [] 1 1).
Proof. unfold wf_db; simpl. split_and!; constructor. Qed.

Lemma NoDup_snoc_fresh {A} (key : A -> Z) (l : list A) (x : A) (bound : Z) :
  NoDup (map key l) ->
  Forall (fun y => key y < bound) l ->
  key x = bound ->
  NoDup (map key (l ++ [x])) /\ Forall (fun y => key y < bound + 1) (l ++ [x]).
Proof.
  intros Hnd Hlt Hx. split.
  - rewrite map_app. simpl. apply NoDup_app. split_and!.
    + done.
    + intros k Hk Hk'. apply list_elem_of_singleton in Hk' as ->.
      apply list_elem_of_fmap in Hk as (y & Hy & Hin).
      pose proof (proj1 (Forall_forall _ _) Hlt y Hin) as Hb. simpl in Hb. lia.
    + apply NoDup_singleton.
  - apply Forall_app. split.
    + eapply Forall_impl; [exact Hlt|]. simpl. intros; lia.
    + repeat constructor. lia.
Qed.

Lemma wf_db_with_message d m :
  wf_db d -> Message.id m = message_seq d -> wf_db (with_message d m).
Proof.
  intros (Hc & Hcb & Hm & Hmb) Hid. unfold wf_db, with_message; simpl.
  destruct (NoDup_snoc_fresh Message.id (messages d) m (message_seq d))
    as [Hnd Hb]; done.
Qed.

Lemma wf_db_with_conversation d c :
  wf_db d -> Conversation.id c = conversation_seq d ->
  wf_db (with_conversation d c).
Proof.
  intros (Hc & Hcb & Hm & Hmb) Hid. unfold wf_db, with_conversation; simpl.
  destruct (NoDup_snoc_fresh Conversation.id (conversations d) c
              (conversation_seq d)) as [Hnd Hb]; done.
Qed.

Lemma touched_ids d cid t :
  map Conversation.id (conversations (touched d cid t)) =
  map Conversation.id (conversations d).
Proof.
  unfold touched; simpl. rewrite map_map. apply map_ext.
  intros c. by case_decide.
Qed.

Lemma wf_db_touched d cid t : wf_db d -> wf_db (touched d cid t).
Proof.
  intros (Hc & Hcb & Hm & Hmb). unfold wf_db.
  rewrite touched_ids. split_and!; try done.
  unfold touched; simpl. apply Forall_fmap.
  eapply Forall_impl; [exact Hcb|]. simpl. intros c Hlt. by case_decide.
Qed.

Lemma NoDup_map_filter {A} (key : A -> Z) (P : A -> Prop)
    `{!forall x, Decision (P x)} (l : list A) :
  NoDup (map key l) -> NoDup (map key (filter P l)).
Proof.
  induction l as [|x l IH]; simpl; [done|].
  intros Hnd. apply NoDup_cons in Hnd as [Hx Hnd].
  rewrite filter_cons. case_decide; [|by apply IH].
  simpl. apply NoDup_cons. split; [|by apply IH].
  intros Hin. apply Hx.
  apply list_elem_of_fmap in Hin as (y & Hy & Hin).
  apply list_elem_of_filter in Hin as [_ Hin].
  rewrite Hy. by apply list_elem_of_fmap_2.
Qed.

Lemma Forall_filter_keep {A} (Q P : A -> Prop)
    `{!forall x, Decision (P x)} (l : list A) :
  Forall Q l -> Forall Q (filter P l).
Proof.
  intros HQ. apply Forall_forall. intros x Hx.
  apply list_elem_of_filter in Hx as [_ Hx].
  by apply (proj1 (Forall_forall _ _) HQ).
Qed.

Lemma wf_db_without_conversation d cid :
  wf_db d -> wf_db (without_conversation d cid).
Proof.
  intros (Hc & Hcb & Hm & Hmb). unfold wf_db, without_conversation; simpl.
  split_and!.
  - by apply NoDup_map_filter.
  - by apply Forall_filter_keep.
  - by apply NoDup_map_filter.
  - by apply Forall_filter_keep.
Qed.

Lemma handlers_keep_wf_db
    (utcnow : nat -> Z)
    (generate_content : string -> GenerationConfig -> result string)
    (w : World) (cid uid : Z) (req : ChatRequest) (data : ConversationCreate) :
  wf_db (store w) ->
  wf_db (store (serve (create_conversation utcnow data uid) w).2)
  /\ wf_db (store (serve (get_conversation cid uid) w).2)
  /\ wf_db (store (serve (send_message utcnow generate_content cid req uid) w).2)
  /\ wf_db (store (serve (delete_conversation cid uid) w).2).
Proof.
  intros Hwf.
  rewrite create_conversation_serve, get_conversation_serve,
    send_message_serve, delete_conversation_serve.
  split_and!.
  - destruct (user_row _ _); [|done]. simpl. by apply wf_db_with_conversation.
  - by destruct (owned_conversation _ _ _).
  - destruct (owned_conversation _ _ _); [|done]. cbv zeta.
    assert (Hwf1 : wf_db (with_message (store w) (user_turn utcnow w cid req)))
      by by apply wf_db_with_message.
    destruct (generate_content _ _); simpl; [|done].
    apply wf_db_touched. by apply wf_db_with_message.
  - destruct (owned_conversation _ _ _); [|done]. simpl.
    by apply wf_db_without_conversation.
Qed.

(** * Further properties of the handlers *)

(** ** [order_by] *)

Lemma insert_by_Permutation {A} (key : A -> Z) (x : A) (l : list A) :
  insert_by key x l ≡ₚ x :: l.
Proof.
  induction l as [|y l IH]; simpl; [done|].
  destruct (key x <=? key y); [done|]. rewrite IH. apply Permutation_swap.
Qed.

Lemma insert_by_StronglySorted {A} (key : A -> Z) (x : A) (l : list A) :
  StronglySorted (fun a b => key a <= key b) l ->
  StronglySorted (fun a b => key a <= key b) (insert_by key x l).
Proof.
  induction 1 as [|y l Hl IH Hy]; simpl.
  - repeat constructor.
  - destruct (key x <=? key y) eqn:Hxy.
    + apply Z.leb_le in Hxy. constructor; [by constructor|].
      constructor; [done|].
      eapply Forall_impl; [exact Hy|]. simpl. intros z Hz. lia.
    + apply Z.leb_gt in Hxy. constructor; [done|].
      rewrite insert_by_Permutation. constructor; [lia | done].
Qed.

Lemma order_by_StronglySorted {A} (key : A -> Z) (l : list A) :
  StronglySorted (fun a b => key a <= key b) (order_by key l).
Proof.
  induction l as [|x l IH]; simpl; [constructor|].
  by apply insert_by_StronglySorted.
Qed.

(** A row whose key is strictly below the key of every other row comes
    first. *)
Lemma head_order_by_least {A} (key : A -> Z) (x : A) (l : list A) :
  x ∈ l ->
  Forall (fun y => y = x \/ key x < key y) l ->
  head (order_by key l) = Some x.
Proof.
  induction l as [|a l IH]; intros Hin Hleast.
  - by apply elem_of_nil in Hin.
  - apply Forall_cons in Hleast as [Ha Hleast]. simpl.
    fold (order_by key l).
    destruct Ha as [->|Hlt].
    + destruct (order_by key l) as [|y r] eqn:Hsorted; simpl; [done|].
      assert (Hy : y ∈ l).
      { rewrite <- (order_by_Permutation key l), Hsorted. by left. }
      destruct (proj1 (Forall_forall _ _) Hleast y Hy) as [->|Hxy].
      * by rewrite Z.leb_refl.
      * by rewrite (proj2 (Z.leb_le _ _)) by lia.
    + apply elem_of_cons in Hin as [->|Hin]; [lia|].
      specialize (IH Hin Hleast).
      destruct (order_by key l) as [|y r]; [done|].
      simpl in IH. injection IH as ->. simpl.
      by rewrite (proj2 (Z.leb_gt _ _)) by lia.
Qed.

Lemma StronglySorted_weaken {A} (R R' : A -> A -> Prop) (l : list A) :
  (forall a b, R a b -> R' a b) ->
  StronglySorted R l -> StronglySorted R' l.
Proof.
  intros HR. induction 1 as [|x l Hl IH Hx]; constructor; [done|].
  eapply Forall_impl; [exact Hx | apply HR].
Qed.

(** ** Listing conversations *)

Lemma list_conversations_serve (w : World) (uid : Z) :
  serve (list_conversations uid) w =
  (Ok (map ConversationResponse_of
         (order_by (fun c => - Conversation.updated_at c)
            (filter (fun c => Conversation.user_id c = uid)
                    (conversations (store w))))), w).
Proof.
  unfold serve, list_conversations, bind, query_conversations_of, get_pending,
    ret; simpl. by destruct w.
Qed.

(** X1.  [list_conversations] answers with the conversations of the asking
    user and no others, each once, the most recently updated first, and
    leaves the world as it was. *)
Theorem list_conversations_own_newest_first (w : World) (uid : Z) :
  exists cs,
    serve (list_conversations uid) w = (Ok (map ConversationResponse_of cs), w)
    /\ cs ≡ₚ filter (fun c => Conversation.user_id c = uid)
                    (conversations (store w))
    /\ (forall c, c ∈ cs <->
                  c ∈ conversations (store w) /\ Conversation.user_id c = uid)
    /\ StronglySorted
         (fun a b => Conversation.updated_at b <= Conversation.updated_at a) cs.
Proof.
  rewrite list_conversations_serve. eexists. split; [reflexivity|].
  split_and!.
  - apply order_by_Permutation.
  - intros c. rewrite order_by_Permutation, list_elem_of_filter. tauto.
  - eapply StronglySorted_weaken;
      [|apply (order_by_StronglySorted (fun c => - Conversation.updated_at c))].
    simpl. intros a b Hab. lia.
Qed.

Lemma NoDup_key_inj {A} (key : A -> Z) (l : list A) (x y : A) :
  NoDup (map key l) -> x ∈ l -> y ∈ l -> key x = key y -> x = y.
Proof.
  induction l as [|a l IH]; simpl; intros Hnd Hx Hy Hk.
  - by apply elem_of_nil in Hx.
  - apply NoDup_cons in Hnd as [Ha Hnd].
    apply elem_of_cons in Hx as [->|Hx];
      apply elem_of_cons in Hy as [->|Hy]; try done.
    + exfalso. apply Ha. rewrite Hk. by apply list_elem_of_fmap_2.
    + exfalso. apply Ha. rewrite <- Hk. by apply list_elem_of_fmap_2.
    + by apply IH.
Qed.

(** X2.  After a successful [send_message], when the timestamp it sets is
    later than the last update of the user's other conversations, the
    conversation written to is the first one [list_conversations] returns,
    with that timestamp. *)
Theorem send_message_moves_conversation_first
    (utcnow : nat -> Z)
    (generate_content : string -> GenerationConfig -> result string)
    (w w' : World) (cid uid : Z) (req : ChatRequest) (resp : ChatResponse) :
  NoDup (map Conversation.id (conversations (store w))) ->
  serve (send_message utcnow generate_content cid req uid) w = (Ok resp, w') ->
  (forall c, c ∈ conversations (store w) -> Conversation.user_id c = uid ->
             Conversation.id c <> cid ->
             Conversation.updated_at c < utcnow (S (S (ticks w)))) ->
  exists first rest,
    (serve (list_conversations uid) w').1 = Ok (first :: rest)
    /\ cr_id first = cid
    /\ cr_updated_at first = utcnow (S (S (ticks w))).
Proof.
  intros Hnd Hok Hlater.
  apply send_message_Ok in Hok as ([c Hown] & _ & _ & ->).
  apply owned_conversation_Some in Hown as (Hc & Hid & Huid).
  set (t := utcnow (S (S (ticks w)))) in *.
  rewrite list_conversations_serve. simpl.
  set (touch := fun c0 : Conversation.t =>
                  if decide (Conversation.id c0 = cid)
                  then Conversation.set_updated_at t c0 else c0).
  assert (Hhead :
    head (order_by (fun c0 => - Conversation.updated_at c0)
            (filter (fun c0 => Conversation.user_id c0 = uid)
                    (map touch (conversations (store w)))))
    = Some (Conversation.set_updated_at t c)).
  { apply head_order_by_least.
    - apply list_elem_of_filter. split; [done|].
      apply list_elem_of_fmap. exists c. split; [|done].
      unfold touch. by rewrite decide_True.
    - apply Forall_forall. intros y Hy.
      apply list_elem_of_filter in Hy as [Hyu Hy].
      apply list_elem_of_fmap in Hy as (c' & -> & Hc').
      unfold touch in *. destruct (decide (Conversation.id c' = cid)) as [He|Hne].
      + left. f_equal.
        apply (NoDup_key_inj Conversation.id (conversations (store w)));
          [done | done | done | congruence].
      + right. simpl. specialize (Hlater c' Hc' Hyu Hne). lia. }
  destruct (order_by _ _) as [|first rest]; [discriminate|].
  injection Hhead as ->.
  eexists. eexists. split; [reflexivity|]. by simpl.
Qed.

Lemma send_message_moves_conversation_first_witness :
  let w' := (serve (send_message clock0 hello_backend 2
                      (mkChatRequest 2 "milk?") 1) world0).2 in
  exists first rest,
    (serve (list_conversations 1) w').1 = Ok (first :: rest)
    /\ cr_id first = 2.
Proof.
  assert (Hnd : NoDup (map Conversation.id (conversations (store world0)))).
  { simpl. apply NoDup_cons. split; [|apply NoDup_singleton].
    intros Hin. apply list_elem_of_singleton in Hin. lia. }
  assert (Hlater : forall c, c ∈ conversations (store world0) ->
            Conversation.user_id c = 1 -> Conversation.id c <> 2 ->
            Conversation.updated_at c < clock0 (S (S (ticks world0)))).
  { intros c Hc _ Hne. simpl in Hc.
    apply elem_of_cons in Hc as [->|Hc]; [vm_compute; reflexivity|].
    apply list_elem_of_singleton in Hc as ->. by destruct Hne. }
  assert (Hsend :
    serve (send_message clock0 hello_backend 2 (mkChatRequest 2 "milk?") 1)
          world0
    = (Ok (mkChatResponse "hello" 2),
       (serve (send_message clock0 hello_backend 2
                 (mkChatRequest 2 "milk?") 1) world0).2))
    by (vm_compute; reflexivity).
  destruct (send_message_moves_conversation_first clock0 hello_backend world0
              (serve (send_message clock0 hello_backend 2
                        (mkChatRequest 2 "milk?") 1) world0).2
              2 1 (mkChatRequest 2 "milk?") (mkChatResponse "hello" 2)
              Hnd Hsend Hlater) as (first & rest & Hr & Hid & _).
  exists first, rest. split; [exact Hr | exact Hid].
Defined.

(** ** What a request leaves alone *)

(** X3.  Whatever its outcome, [send_message] on one conversation leaves
    the rows and the history of every other conversation, and the users,
    as they were; it neither adds nor removes a conversation. *)
Theorem send_message_other_conversations
    (utcnow : nat -> Z)
    (generate_content : string -> GenerationConfig -> result string)
    (w : World) (cid uid other : Z) (req : ChatRequest) :
  other <> cid ->
  let w' := (serve (send_message utcnow generate_content cid req uid) w).2 in
  rows_of other (store w') = rows_of other (store w)
  /\ messages_of other (store w') = messages_of other (store w)
  /\ filter (fun c => Conversation.id c <> cid) (conversations (store w'))
     = filter (fun c => Conversation.id c <> cid) (conversations (store w))
  /\ map Conversation.id (conversations (store w'))
     = map Conversation.id (conversations (store w))
  /\ users (store w') = users (store w).
Proof.
  intros Hne. cbv zeta. rewrite send_message_serve.
  destruct (owned_conversation (store w) cid uid) as [c|] eqn:Hown; [|done].
  apply owned_conversation_Some in Hown as (_ & Hid & _).
  cbv zeta.
  assert (Hrows_um :
    rows_of other (with_message (store w) (user_turn utcnow w cid req))
    = rows_of other (store w)).
  { rewrite rows_of_with_message. simpl.
    rewrite decide_False by congruence. apply app_nil_r. }
  destruct (generate_content _ _) as [text|e]; simpl.
  - assert (Hrows :
      rows_of other
        (touched (with_message (with_message (store w)
           (user_turn utcnow w cid req)) (assistant_turn utcnow w cid text))
           (Conversation.id c) (utcnow (S (S (ticks w)))))
      = rows_of other (store w)).
    { rewrite rows_of_touched, rows_of_with_message. simpl.
      rewrite decide_False by congruence. by rewrite app_nil_r. }
    split_and!; try done.
    + unfold messages_of. fold (rows_of other (store w)).
      by rewrite <- Hrows.
    + rewrite Hid. clear. induction (conversations (store w)) as [|a l IH];
        simpl; [done|].
      rewrite !filter_cons.
      destruct (decide (Conversation.id a = cid)) as [He|Hn]; simpl.
      * rewrite !decide_False by (simpl; tauto). exact IH.
      * rewrite !decide_True by done. by rewrite IH.
    + apply (touched_ids (with_message (with_message (store w)
               (user_turn utcnow w cid req)) (assistant_turn utcnow w cid text))).
  - split_and!; try done.
    unfold messages_of. fold (rows_of other (store w)). by rewrite <- Hrows_um.
Qed.

Lemma send_message_other_conversations_witness :
  let w' := (serve (send_message clock0 hello_backend 1
                      (mkChatRequest 1 "hi") 1) world0).2 in
  rows_of 2 (store w') = rows_of 2 (store world0)
  /\ users (store w') = users (store world0).
Proof.
  destruct (send_message_other_conversations clock0 hello_backend world0 1 1 2
              (mkChatRequest 1 "hi") ltac:(lia)) as (Hrows & _ & _ & _ & Hu).
  split; [exact Hrows | exact Hu].
Defined.

(** ** The prompt of a request *)

Lemma format_history (rows : list Message.t) :
  GenAIService._format_messages_for_gemini (map history_entry rows) =
  join newline (map rendered (map turn rows)) +:+ newline +:+ "Assistant:".
Proof.
  unfold GenAIService._format_messages_for_gemini.
  rewrite !map_map.
  rewrite (map_ext _ (fun m => rendered (turn m))); [done|].
  intros m. rewrite history_entry_message_of_turn.
  apply format_turn_message_of_turn.
Qed.



(** ** Fresh primary keys *)

(** X5.  In a store whose primary keys are unique and below their
    sequences, a successful [send_message] returns a message id that no
    earlier message has, one above the id of the user message it stored,
    and distinct from it. *)
Theorem send_message_fresh_ids
    (utcnow : nat -> Z)
    (generate_content : string -> GenerationConfig -> result string)
    (w w' : World) (cid uid : Z) (req : ChatRequest) (resp : ChatResponse) :
  wf_db (store w) ->
  serve (send_message utcnow generate_content cid req uid) w = (Ok resp, w') ->
  (message_id resp ∉ map Message.id (messages (store w)))
  /\ message_id resp = Message.id (user_turn utcnow w cid req) + 1
  /\ (Message.id (user_turn utcnow w cid req)
        ∉ map Message.id (messages (store w)))
  /\ exists am, last (messages (store w')) = Some am
                /\ Message.id am = message_id resp
                /\ Message.role am = "assistant".
Proof.
  intros (_ & _ & _ & Hbound) Hok.
  apply send_message_Ok in Hok as (_ & _ & Hid & ->). simpl in *.
  assert (Hfresh : forall k, message_seq (store w) <= k ->
                     k ∉ map Message.id (messages (store w))).
  { intros k Hk Hin. apply list_elem_of_fmap in Hin as (m & -> & Hm).
    pose proof (proj1 (Forall_forall _ _) Hbound m Hm) as Hlt. simpl in Hlt.
    lia. }
  split_and!.
  - rewrite Hid. apply Hfresh. lia.
  - by rewrite Hid.
  - apply Hfresh. lia.
  - exists (assistant_turn utcnow w cid (assistant_message resp)).
    rewrite last_snoc. by split_and!.
Qed.

Lemma send_message_fresh_ids_witness :
  let w1 := (serve (send_message clock0 hello_backend 1
                      (mkChatRequest 1 "hi") 1) world0).2 in
  map Message.id (messages (store w1)) = [1; 2]
  /\ exists resp w2,
       serve (send_message clock0 hello_backend 1
                (mkChatRequest 1 "and then?") 1) w1 = (Ok resp, w2)
       /\ message_id resp = 4
       /\ (message_id resp ∉ map Message.id (messages (store w1))).
Proof.
  cbv zeta.
  set (w1 := (serve (send_message clock0 hello_backend 1
                       (mkChatRequest 1 "hi") 1) world0).2).
  assert (Hids : map Message.id (messages (store w1)) = [1; 2])
    by (vm_compute; reflexivity).
  assert (Hwf : wf_db (store w1)).
  { apply (handlers_keep_wf_db clock0 hello_backend world0 1 1
             (mkChatRequest 1 "hi") ConversationCreate_default).
    unfold wf_db; simpl. split_and!.
    - apply NoDup_cons. split; [|apply NoDup_singleton].
      intros Hin. apply list_elem_of_singleton in Hin. lia.
    - repeat constructor; simpl; lia.
    - constructor.
    - constructor. }
  assert (Hsend :
    serve (send_message clock0 hello_backend 1 (mkChatRequest 1 "and then?") 1)
          w1
    = (Ok (mkChatResponse "hello" 4),
       (serve (send_message clock0 hello_backend 1
                 (mkChatRequest 1 "and then?") 1) w1).2))
    by (vm_compute; reflexivity).
  split; [exact Hids|].
  eexists _, _. split; [exact Hsend|]. split; [reflexivity|].
  exact (proj1 (send_message_fresh_ids clock0 hello_backend w1 _ 1 1
                  (mkChatRequest 1 "and then?") (mkChatResponse "hello" 4)
                  Hwf Hsend)).
Defined.

(** ** Requests one after the other *)

Lemma filter_nil_Forall {A} (P : A -> Prop) `{!forall x, Decision (P x)}
    (l : list A) :
  Forall (fun x => ~ P x) l -> filter P l = [].
Proof.
  induction 1 as [|x l Hx _ IH]; [done|].
  by rewrite filter_cons, decide_False.
Qed.

(** X6.  In a store with unique primary keys and no orphan message, after
    a user created a conversation that user's [get_conversation] on the
    returned id answers with the returned record and an empty message
    list, and any other user's gets 404 "Conversation not found". *)
Theorem create_then_get
    (utcnow : nat -> Z) (w w' : World) (data : ConversationCreate)
    (uid other : Z) (created : ConversationResponse) :
  wf_db (store w) ->
  no_orphans (store w) ->
  serve (create_conversation utcnow data uid) w = (Ok created, w') ->
  other <> uid ->
  serve (get_conversation (cr_id created) uid) w'
    = (Ok (mkConversationDetailResponse created []), w')
  /\ serve (get_conversation (cr_id created) other) w'
     = (Raise conversation_not_found, w')
  /\ cr_title created = cc_title data
  /\ (cr_id created ∉ map Conversation.id (conversations (store w))).
Proof.
  intros (Hnd & Hbound & _ & _) Horph Hcreate Hother.
  rewrite create_conversation_serve in Hcreate.
  destruct (user_row (store w) uid) as [u|]; [|discriminate].
  cbv zeta in Hcreate. injection Hcreate as <- <-. simpl.
  set (seq := conversation_seq (store w)).
  set (t := utcnow (ticks w)).
  set (c := Conversation.mk seq uid (cc_title data) t t).
  assert (Hfresh : Forall (fun c' => Conversation.id c' <> seq)
                          (conversations (store w))).
  { eapply Forall_impl; [exact Hbound|]. simpl. intros c' Hlt. unfold seq. lia. }
  assert (Hrows : rows_of seq (with_conversation (store w) c) = []).
  { unfold rows_of; simpl. apply filter_nil_Forall.
    apply Forall_forall. intros m Hm Hcid.
    destruct (proj1 (Forall_forall _ _) Horph m Hm) as (c' & Hc' & Hid).
    apply (proj1 (Forall_forall _ _) Hfresh c' Hc'). congruence. }
  assert (Hfind : forall u',
    owned_conversation (with_conversation (store w) c) seq u'
    = if decide (uid = u') then Some c else None).
  { intros u'. unfold owned_conversation; simpl.
    rewrite filter_app, filter_cons, filter_nil.
    rewrite (filter_nil_Forall _ (conversations (store w))).
    - simpl. destruct (decide (uid = u')) as [<-|Hne].
      + by rewrite decide_True.
      + by rewrite decide_False by tauto.
    - eapply Forall_impl; [exact Hfresh|]. simpl. tauto. }
  rewrite !get_conversation_serve. simpl.
  rewrite !Hfind, decide_True, decide_False by done. simpl.
  split_and!; try done.
  - unfold messages_of. fold (rows_of seq (with_conversation (store w) c)).
    by rewrite Hrows.
  - intros Hin. apply list_elem_of_fmap in Hin as (c' & Heq & Hc').
    by apply (proj1 (Forall_forall _ _) Hfresh c' Hc').
Qed.

Lemma create_then_get_witness :
  let w' := (serve (create_conversation clock0 (mkConversationCreate "trip 2") 1)
               world0).2 in
  serve (get_conversation 3 1) w'
    = (Ok (mkConversationDetailResponse
             (mkConversationResponse 3 "trip 2" 1000 1000) []), w')
  /\ serve (get_conversation 3 2) w' = (Raise conversation_not_found, w').
Proof.
  assert (Hwf : wf_db (store world0)).
  { unfold wf_db; simpl. split_and!.
    - apply NoDup_cons. split; [|apply NoDup_singleton].
      intros Hin. apply list_elem_of_singleton in Hin. lia.
    - repeat constructor; simpl; lia.
    - constructor.
    - constructor. }
  assert (Horph : no_orphans (store world0)) by constructor.
  destruct (create_then_get clock0 world0
              (serve (create_conversation clock0 (mkConversationCreate "trip 2") 1)
                 world0).2
              (mkConversationCreate "trip 2") 1 2
              (mkConversationResponse 3 "trip 2" 1000 1000)
              Hwf Horph eq_refl ltac:(lia)) as (Hg & Hg' & _).
  split; [exact Hg | exact Hg'].
Defined.

(** X7.  Once a conversation has been deleted its id is dead: for every
    user, [get_conversation], [send_message] and a second
    [delete_conversation] on it raise 404 "Conversation not found" and
    change nothing. *)
Theorem deleted_conversation_is_gone
    (utcnow : nat -> Z)
    (generate_content : string -> GenerationConfig -> result string)
    (w w' : World) (cid uid : Z) (confirmation : string)
    (anyone : Z) (req : ChatRequest) :
  serve (delete_conversation cid uid) w = (Ok confirmation, w') ->
  serve (get_conversation cid anyone) w' = (Raise conversation_not_found, w')
  /\ serve (send_message utcnow generate_content cid req anyone) w'
     = (Raise conversation_not_found, w')
  /\ serve (delete_conversation cid anyone) w'
     = (Raise conversation_not_found, w')
  /\ rows_of cid (store w') = [].
Proof.
  rewrite delete_conversation_serve.
  destruct (owned_conversation (store w) cid uid) as [c|] eqn:Hown;
    [|discriminate].
  apply owned_conversation_Some in Hown as (_ & Hid & _).
  intros [= _ <-]. rewrite Hid.
  rewrite get_conversation_serve, send_message_serve,
    delete_conversation_serve. simpl.
  rewrite (owned_conversation_absent _ cid anyone)
    by apply without_conversation_absent.
  split_and!; try done.
  unfold rows_of, without_conversation; simpl.
  apply filter_nil_Forall, Forall_forall. intros m Hm.
  apply list_elem_of_filter in Hm as [Hne _]. tauto.
Qed.

Lemma deleted_conversation_is_gone_witness :
  let w' := (serve (delete_conversation 1 1) world0).2 in
  serve (delete_conversation 1 1) w' = (Raise conversation_not_found, w')
  /\ serve (send_message clock0 hello_backend 1 (mkChatRequest 1 "hi") 1) w'
     = (Raise conversation_not_found, w').
Proof.
  destruct (deleted_conversation_is_gone clock0 hello_backend world0
              (serve (delete_conversation 1 1) world0).2 1 1
              "Conversation deleted successfully" 1 (mkChatRequest 1 "hi")
              eq_refl) as (_ & Hs & Hd & _).
  split; [exact Hd | exact Hs].
Defined.

(** ** Registration *)

Section Register.

Variable utcnow : nat -> Z.
Variable SECRET_KEY : string.
Variable sign : string -> gmap string claim -> string.
Variable hash_password : string -> string.
Variable user_id_default : DB -> Z.
Variable is_active_default : bool.

Local Abbreviation register :=
  (register utcnow SECRET_KEY sign hash_password user_id_default
            is_active_default).

Lemma register_serve (user_data : UserRegister) (w : World) :
  serve (register user_data) w =
  match head (filter (fun u => User.email u = reg_email user_data
                               \/ User.username u = reg_username user_data)
                     (users (store w))) with
  | Some _ => (Raise user_already_exists, w)
  | None =>
      let user := User.mk (user_id_default (store w)) (reg_username user_data)
                    (reg_email user_data)
                    (hash_password (reg_password user_data))
                    is_active_default in
      let p : gmap string claim :=
        <[ "exp" := ClaimInt (utcnow (ticks w) + twenty_four_hours) ]>
          {[ "sub" := ClaimStr (str_int (User.id user)) ]} in
      (Ok (mkTokenResponse (mkToken p (sign SECRET_KEY p)) "bearer"
                           (User.id user)),
       mkWorld (with_user (store w) user) (S (ticks w)) (sent w))
  end.
Proof.
  unfold serve, register, bind, query_user_by_email_or_username, get_pending,
    ret; simpl.
  destruct (head _); simpl; by destruct w.
Qed.

(** X8.  [register] refuses, with 400 "User with this email or username
    already exists" and without touching the world, as soon as some user
    has the requested e-mail address or the requested user name, whatever
    the other fields are. *)
Theorem register_conflict (user_data : UserRegister) (w : World) (u : User.t) :
  u ∈ users (store w) ->
  User.email u = reg_email user_data
  \/ User.username u = reg_username user_data ->
  serve (register user_data) w = (Raise user_already_exists, w).
Proof.
  intros Hin Hsame. rewrite register_serve.
  destruct (head _) as [u'|] eqn:Hhead; [done|].
  apply head_filter_None in Hhead.
  by destruct (proj1 (Forall_forall _ _) Hhead u Hin).
Qed.

(** X9.  When nobody has the e-mail address or the user name, [register]
    stores exactly one new user, with the given name and address and the
    hash of the given password, and answers with that user's id; the
    same [register] again, or one that reuses only the address or only
    the name, is then refused with 400. *)
Theorem register_then_register
    (user_data again : UserRegister) (w : World) :
  Forall (fun u => User.email u <> reg_email user_data
                   /\ User.username u <> reg_username user_data)
         (users (store w)) ->
  reg_email again = reg_email user_data
  \/ reg_username again = reg_username user_data ->
  exists resp w' user,
    serve (register user_data) w = (Ok resp, w')
    /\ users (store w') = users (store w) ++ [user]
    /\ User.username user = reg_username user_data
    /\ User.email user = reg_email user_data
    /\ User.hashed_password user = hash_password (reg_password user_data)
    /\ tr_user_id resp = User.id user
    /\ conversations (store w') = conversations (store w)
    /\ messages (store w') = messages (store w)
    /\ serve (register again) w' = (Raise user_already_exists, w').
Proof.
  intros Hfree Hagain. rewrite register_serve.
  rewrite (proj2 (head_filter_None _ _)); cycle 1.
  { eapply Forall_impl; [exact Hfree|]. simpl. tauto. }
  cbv zeta. eexists. eexists. eexists. split; [reflexivity|]. simpl.
  split_and!; try done.
  rewrite register_serve. simpl.
  destruct (head _) as [u'|] eqn:Hhead; [done|].
  apply head_filter_None in Hhead.
  apply Forall_app in Hhead as [_ Hnew].
  apply Forall_cons in Hnew as [Hnew _]. simpl in Hnew.
  destruct Hnew. destruct Hagain as [->| ->]; tauto.
Qed.

End Register.

(** X10.  A user who has just registered can log in: when the password
    check accepts a password against its own hash, [login] with the
    registered e-mail address and password, right after a successful
    [register], does not fail with 401; it returns the id [register]
    returned if new users are active, and 403 "User account is inactive"
    if they are not. *)
Theorem register_then_login
    (utcnow : nat -> Z) (SECRET_KEY : string)
    (sign : string -> gmap string claim -> string)
    (verify_password : string -> string -> bool)
    (hash_password : string -> string)
    (user_id_default : DB -> Z) (is_active_default : bool)
    (user_data : UserRegister) (w w' : World) (resp : TokenResponse) :
  verify_password (reg_password user_data)
                  (hash_password (reg_password user_data)) = true ->
  serve (register utcnow SECRET_KEY sign hash_password user_id_default
           is_active_default user_data) w = (Ok resp, w') ->
  let out := serve (login utcnow SECRET_KEY sign verify_password
                      (mkUserLogin (reg_email user_data)
                                   (reg_password user_data))) w' in
  if is_active_default
  then exists tok, out.1 = Ok (mkTokenResponse tok "bearer" (tr_user_id resp))
  else out.1 = Raise account_inactive.
Proof.
  intros Hpw. rewrite register_serve.
  destruct (head _) as [u'|] eqn:Hhead; [discriminate|].
  apply head_filter_None in Hhead. cbv zeta. intros [= <- <-].
  rewrite login_serve. simpl.
  rewrite filter_app, filter_cons, filter_nil.
  rewrite (filter_nil_Forall _ (users (store w))); cycle 1.
  { eapply Forall_impl; [exact Hhead|]. simpl. tauto. }
  rewrite decide_True by done. simpl. rewrite Hpw.
  destruct is_active_default; simpl; [by eexists | done].
Qed.


Lemma register_conflict_witness :
  serve (register clock0 "k" toy_sign toy_hash count_user_id true
           (mkUserRegister "ana2" "ana@x.com" "pw")) world0
  = (Raise user_already_exists, world0).
Proof.
  apply (register_conflict clock0 "k" toy_sign toy_hash count_user_id true
           (mkUserRegister "ana2" "ana@x.com" "pw") world0 ana).
  - by left.
  - by left.
Defined.

Lemma register_then_register_witness :
  exists resp w',
    serve (register clock0 "k" toy_sign toy_hash count_user_id true
             (mkUserRegister "cy" "cy@x.com" "pw")) world0 = (Ok resp, w')
    /\ map User.username (users (store w')) = ["ana"; "bob"; "cy"]
    /\ serve (register clock0 "k" toy_sign toy_hash count_user_id true
                (mkUserRegister "cy" "other@x.com" "pw2")) w'
       = (Raise user_already_exists, w').
Proof.
  assert (Hfree :
    Forall (fun u => User.email u <> "cy@x.com" /\ User.username u <> "cy")
           (users (store world0))).
  { repeat constructor; discriminate. }
  destruct (register_then_register clock0 "k" toy_sign toy_hash count_user_id
              true (mkUserRegister "cy" "cy@x.com" "pw")
              (mkUserRegister "cy" "other@x.com" "pw2") world0 Hfree
              (or_intror eq_refl))
    as (resp & w' & user & Hr & Hu & Hname & _ & _ & _ & _ & _ & Hagain).
  exists resp, w'. split_and!; [exact Hr | | exact Hagain].
  rewrite Hu, map_app. simpl. by rewrite Hname.
Defined.

Lemma register_then_login_witness :
  let w' := (serve (register clock0 "k" toy_sign toy_hash count_user_id true
                      (mkUserRegister "cy" "cy@x.com" "pw")) world0).2 in
  exists tok,
    (serve (login clock0 "k" toy_sign plain_verify_password
              (mkUserLogin "cy@x.com" "pw")) w').1
    = Ok (mkTokenResponse tok "bearer" 3).
Proof.
  assert (Hr : exists resp w',
    serve (register clock0 "k" toy_sign toy_hash count_user_id true
             (mkUserRegister "cy" "cy@x.com" "pw")) world0 = (Ok resp, w')
    /\ tr_user_id resp = 3).
  { rewrite register_serve. eexists _, _. split; reflexivity. }
  destruct Hr as (resp & w' & Hr & Hid).
  rewrite Hr. cbv zeta. simpl snd. rewrite <- Hid.
  exact (register_then_login clock0 "k" toy_sign plain_verify_password toy_hash
           count_user_id true (mkUserRegister "cy" "cy@x.com" "pw") world0
           w' resp eq_refl Hr).
Defined.

(** ** Invariants of the store *)

Lemma no_orphans_with_conversation d c :
  no_orphans d -> no_orphans (with_conversation d c).
Proof.
  unfold no_orphans, with_conversation; simpl. intros Hno.
  eapply Forall_impl; [exact Hno|]. simpl. intros m (c' & Hc' & Hid).
  exists c'. split; [|done]. apply elem_of_app. by left.
Qed.

Lemma no_orphans_with_message d m c :
  c ∈ conversations d -> Conversation.id c = Message.conversation_id m ->
  no_orphans d -> no_orphans (with_message d m).
Proof.
  unfold no_orphans, with_message; simpl. intros Hc Hid Hno.
  apply Forall_app. split; [done|]. repeat constructor. by exists c.
Qed.

Lemma no_orphans_touched d cid t : no_orphans d -> no_orphans (touched d cid t).
Proof.
  unfold no_orphans. intros Hno.
  eapply Forall_impl; [exact Hno|]. simpl. intros m (c & Hc & Hid).
  assert (Hin : Conversation.id c ∈ map Conversation.id (conversations d))
    by by apply list_elem_of_fmap_2.
  rewrite <- (touched_ids d cid t) in Hin.
  apply list_elem_of_fmap in Hin as (c' & Hid' & Hc').
  exists c'. split; [done | congruence].
Qed.

Lemma replies_follow_user_app (l l' : list Message.t) : forall b,
  replies_follow_user b l = true ->
  (forall b', replies_follow_user b' l' = true) ->
  replies_follow_user b (l ++ l') = true.
Proof.
  induction l as [|m l IH]; intros b Hl Hl'; simpl in *; [apply Hl'|].
  destruct (decide (Message.role m = "assistant")).
  - apply andb_true_iff in Hl as [-> Hl]. simpl. by apply IH.
  - by apply IH.
Qed.

Lemma rows_of_without_conversation cid' d cid :
  rows_of cid' (without_conversation d cid) =
  if decide (cid' = cid) then [] else rows_of cid' d.
Proof.
  unfold rows_of, without_conversation; simpl.
  induction (messages d) as [|m l IH]; simpl; [by destruct (decide _)|].
  rewrite !filter_cons.
  destruct (decide (Message.conversation_id m <> cid)) as [Hne|He]; simpl.
  - rewrite filter_cons.
    destruct (decide (Message.conversation_id m = cid')) as [Hm|Hm].
    + rewrite IH. destruct (decide (cid' = cid)); [congruence | done].
    + exact IH.
  - rewrite IH. destruct (decide (cid' = cid)) as [->|Hc]; [done|].
    rewrite decide_False; [done|]. intros Hm. apply He. congruence.
Qed.

Lemma paired_with_turns d um am (with_reply : bool) :
  Message.role um = "user" -> Message.role am = "assistant" ->
  Message.conversation_id am = Message.conversation_id um ->
  paired d ->
  paired (if with_reply then with_message (with_message d um) am
          else with_message d um).
Proof.
  intros Hum Ham Hcid Hp cid.
  assert (Hu : forall b', replies_follow_user b' [um] = true).
  { intros b'. simpl. rewrite Hum. by rewrite decide_False. }
  assert (Hua : forall b', replies_follow_user b' [um; am] = true).
  { intros b'. simpl. rewrite Hum, Ham.
    rewrite decide_False by done. by rewrite decide_True. }
  destruct with_reply; rewrite !rows_of_with_message; simpl; rewrite ?Hcid;
    destruct (decide (Message.conversation_id um = cid));
    rewrite ?app_nil_r, <- ?app_assoc; simpl;
    try apply replies_follow_user_app; auto.
Qed.

Lemma unique_identities_with_user d u :
  Forall (fun u' => ~ (User.email u' = User.email u
                       \/ User.username u' = User.username u)) (users d) ->
  unique_identities d -> unique_identities (with_user d u).
Proof.
  intros Hfree [He Hn]. unfold unique_identities, with_user; simpl.
  rewrite !map_app. simpl. split; apply NoDup_app; split_and!; try done;
    try apply NoDup_singleton.
  - intros e Hin He'. apply list_elem_of_singleton in He' as ->.
    apply list_elem_of_fmap in Hin as (u' & Heq & Hu').
    apply (proj1 (Forall_forall _ _) Hfree u' Hu'). by left.
  - intros n Hin Hn'. apply list_elem_of_singleton in Hn' as ->.
    apply list_elem_of_fmap in Hin as (u' & Heq & Hu').
    apply (proj1 (Forall_forall _ _) Hfree u' Hu'). by right.
Qed.

Section Invariants.

Variable utcnow : nat -> Z.
Variable generate_content : string -> GenerationConfig -> result string.
Variable SECRET_KEY : string.
Variable sign : string -> gmap string claim -> string.
Variable verify_password : string -> string -> bool.
Variable hash_password : string -> string.
Variable user_id_default : DB -> Z.
Variable is_active_default : bool.

Local Abbreviation handle :=
  (handle utcnow generate_content SECRET_KEY sign verify_password
          hash_password user_id_default is_active_default).
Local Abbreviation handle_all :=
  (handle_all utcnow generate_content SECRET_KEY sign verify_password
              hash_password user_id_default is_active_default).

(** An invariant of single requests is an invariant of sequences. *)
Lemma handle_all_invariant (I : DB -> Prop) :
  (forall r w, I (store w) -> I (store (handle r w))) ->
  forall rs w, I (store w) -> I (store (handle_all rs w)).
Proof.
  intros Hstep rs. unfold handle_all.
  induction rs as [|r rs IH]; intros w Hw; simpl; [done|].
  by apply IH, Hstep.
Qed.

Lemma handle_wf_db r w : wf_db (store w) -> wf_db (store (handle r w)).
Proof.
  intros Hwf.
  destruct r as [ud|ud|data uid|uid|cid uid|cid req uid|cid uid]; unfold handle.
  - rewrite register_serve. by destruct (head _).
  - rewrite login_serve. destruct (head _) as [u|]; [|done].
    destruct (verify_password _ _); [|done]. by destruct (User.is_active u).
  - by apply (handlers_keep_wf_db utcnow generate_content w 0 uid
                (mkChatRequest 0 "") data).
  - by rewrite list_conversations_serve.
  - by apply (handlers_keep_wf_db utcnow generate_content w cid uid
                (mkChatRequest 0 "") ConversationCreate_default).
  - by apply (handlers_keep_wf_db utcnow generate_content w cid uid req
                ConversationCreate_default).
  - by apply (handlers_keep_wf_db utcnow generate_content w cid uid
                (mkChatRequest 0 "") ConversationCreate_default).
Qed.

Lemma handle_no_orphans r w :
  no_orphans (store w) -> no_orphans (store (handle r w)).
Proof.
  intros Hno.
  destruct r as [ud|ud|data uid|uid|cid uid|cid req uid|cid uid]; unfold handle.
  - rewrite register_serve. by destruct (head _).
  - rewrite login_serve. destruct (head _) as [u|]; [|done].
    destruct (verify_password _ _); [|done]. by destruct (User.is_active u).
  - rewrite create_conversation_serve. destruct (user_row _ _); [|done].
    by apply no_orphans_with_conversation.
  - by rewrite list_conversations_serve.
  - rewrite get_conversation_serve. by destruct (owned_conversation _ _ _).
  - rewrite send_message_serve.
    destruct (owned_conversation _ _ _) as [c|] eqn:Hown; [|done].
    apply owned_conversation_Some in Hown as (Hc & Hid & _). cbv zeta.
    assert (H1 : no_orphans (with_message (store w) (user_turn utcnow w cid req)))
      by by apply (no_orphans_with_message _ _ c).
    destruct (generate_content _ _); simpl; [|done].
    apply no_orphans_touched.
    apply (no_orphans_with_message _ _ c); [|done|done].
    done.
  - rewrite delete_conversation_serve.
    destruct (owned_conversation _ _ _); [|done]. simpl.
    by apply without_conversation_no_orphans.
Qed.

Lemma handle_paired r w : paired (store w) -> paired (store (handle r w)).
Proof.
  intros Hp.
  destruct r as [ud|ud|data uid|uid|cid uid|cid req uid|cid uid]; unfold handle.
  - rewrite register_serve. by destruct (head _).
  - rewrite login_serve. destruct (head _) as [u|]; [|done].
    destruct (verify_password _ _); [|done]. by destruct (User.is_active u).
  - rewrite create_conversation_serve. by destruct (user_row _ _).
  - by rewrite list_conversations_serve.
  - rewrite get_conversation_serve. by destruct (owned_conversation _ _ _).
  - rewrite send_message_serve.
    destruct (owned_conversation _ _ _) as [c|]; [|done]. cbv zeta.
    destruct (generate_content _ _) as [text|e]; simpl.
    + intros cid'. rewrite rows_of_touched.
      by apply (paired_with_turns (store w) (user_turn utcnow w cid req)
                  (assistant_turn utcnow w cid text) true).
    + by apply (paired_with_turns (store w) (user_turn utcnow w cid req)
                  (assistant_turn utcnow w cid "") false).
  - rewrite delete_conversation_serve.
    destruct (owned_conversation _ _ _) as [c|]; [|done]. simpl.
    intros cid'. rewrite rows_of_without_conversation.
    by destruct (decide _).
Qed.

Lemma handle_unique_identities r w :
  unique_identities (store w) -> unique_identities (store (handle r w)).
Proof.
  intros Hu.
  destruct r as [ud|ud|data uid|uid|cid uid|cid req uid|cid uid]; unfold handle.
  - rewrite register_serve. destruct (head _) eqn:Hhead; [done|]. simpl.
    apply unique_identities_with_user; [|done].
    by apply head_filter_None in Hhead.
  - rewrite login_serve. destruct (head _) as [u|]; [|done].
    destruct (verify_password _ _); [|done]. by destruct (User.is_active u).
  - rewrite create_conversation_serve. by destruct (user_row _ _).
  - by rewrite list_conversations_serve.
  - rewrite get_conversation_serve. by destruct (owned_conversation _ _ _).
  - rewrite send_message_serve.
    destruct (owned_conversation _ _ _) as [c|]; [|done]. cbv zeta.
    by destruct (generate_content _ _).
  - rewrite delete_conversation_serve.
    by destruct (owned_conversation _ _ _).
Qed.

End Invariants.

(** A short session for the examples: a user registers, opens a
    conversation, writes twice and deletes the conversation. *)
Lemma example_session_store :
  store (handle_all clock0 hello_backend "k" toy_sign plain_verify_password
           toy_hash count_user_id true
           [POST_auth_register (mkUserRegister "ana" "ana@x.com" "pw123");
            POST_chat_conversations (mkConversationCreate "trip") 1;
            POST_chat_messages 1 (mkChatRequest 1 "hi") 1;
            POST_chat_messages 1 (mkChatRequest 1 "and then?") 1;
            DELETE_chat_conversation 1 1]
           (mkWorld empty_db 0 []))
  = mkDB [User.mk 1 "ana" "ana@x.com" "hash:pw123" true] [] [] 2 5.
Proof. vm_compute. reflexivity. Qed.

(** X11.  Whatever requests the application serves, in a store where the
    ids of conversations are unique and below the conversation sequence,
    and the ids of messages unique and below the message sequence, they
    remain so. *)
Theorem primary_keys_stay_unique
    (utcnow : nat -> Z)
    (generate_content : string -> GenerationConfig -> result string)
    (SECRET_KEY : string) (sign : string -> gmap string claim -> string)
    (verify_password : string -> string -> bool)
    (hash_password : string -> string)
    (user_id_default : DB -> Z) (is_active_default : bool)
    (rs : list request) (w : World) :
  wf_db (store w) ->
  wf_db (store (handle_all utcnow generate_content SECRET_KEY sign
                  verify_password hash_password user_id_default
                  is_active_default rs w)).
Proof.
  apply (handle_all_invariant utcnow generate_content SECRET_KEY sign
           verify_password hash_password user_id_default is_active_default
           wf_db).
  apply handle_wf_db.
Qed.

Lemma primary_keys_stay_unique_witness :
  wf_db (store (handle_all clock0 hello_backend "k" toy_sign
                  plain_verify_password toy_hash count_user_id true
                  [POST_auth_register (mkUserRegister "ana" "ana@x.com" "pw123");
                   POST_chat_conversations (mkConversationCreate "trip") 1;
                   POST_chat_messages 1 (mkChatRequest 1 "hi") 1]
                  (mkWorld empty_db 0 []))).
Proof.
  apply primary_keys_stay_unique. apply (wf_db_empty []).
Defined.

(** X12.  Whatever requests the application serves, a store in which every
    message has its parent conversation stays so: no handler leaves an
    orphan message behind. *)
Theorem no_orphan_messages
    (utcnow : nat -> Z)
    (generate_content : string -> GenerationConfig -> result string)
    (SECRET_KEY : string) (sign : string -> gmap string claim -> string)
    (verify_password : string -> string -> bool)
    (hash_password : string -> string)
    (user_id_default : DB -> Z) (is_active_default : bool)
    (rs : list request) (w : World) :
  no_orphans (store w) ->
  no_orphans (store (handle_all utcnow generate_content SECRET_KEY sign
                       verify_password hash_password user_id_default
                       is_active_default rs w)).
Proof.
  apply (handle_all_invariant utcnow generate_content SECRET_KEY sign
           verify_password hash_password user_id_default is_active_default
           no_orphans).
  apply handle_no_orphans.
Qed.

Lemma no_orphan_messages_witness :
  no_orphans (store (handle_all clock0 hello_backend "k" toy_sign
                       plain_verify_password toy_hash count_user_id true
                       [POST_chat_messages 1 (mkChatRequest 1 "hi") 1;
                        DELETE_chat_conversation 1 1;
                        POST_chat_messages 2 (mkChatRequest 2 "milk?") 1]
                       world0)).
Proof.
  apply no_orphan_messages. constructor.
Defined.

(** X13.  Whatever requests the application serves, and whether
    generations succeed or fail, in every conversation each assistant
    message comes right after a user message of that conversation: no
    handler stores a reply without the user turn it answers. *)
Theorem replies_always_follow_a_user_turn
    (utcnow : nat -> Z)
    (generate_content : string -> GenerationConfig -> result string)
    (SECRET_KEY : string) (sign : string -> gmap string claim -> string)
    (verify_password : string -> string -> bool)
    (hash_password : string -> string)
    (user_id_default : DB -> Z) (is_active_default : bool)
    (rs : list request) (w : World) :
  paired (store w) ->
  paired (store (handle_all utcnow generate_content SECRET_KEY sign
                   verify_password hash_password user_id_default
                   is_active_default rs w)).
Proof.
  apply (handle_all_invariant utcnow generate_content SECRET_KEY sign
           verify_password hash_password user_id_default is_active_default
           paired).
  apply handle_paired.
Qed.

Lemma replies_always_follow_a_user_turn_witness :
  paired (store (handle_all clock0 failing_backend "k" toy_sign
                   plain_verify_password toy_hash count_user_id true
                   [POST_chat_messages 1 (mkChatRequest 1 "hi") 1;
                    POST_chat_messages 1 (mkChatRequest 1 "hello?") 1]
                   world0)).
Proof.
  apply replies_always_follow_a_user_turn. intros cid. reflexivity.
Defined.

(** X14.  Whatever requests the application serves, e-mail addresses and
    user names that are unique among the users stay unique: [register]
    never stores a second user with an address or a name already taken. *)
Theorem identities_stay_unique
    (utcnow : nat -> Z)
    (generate_content : string -> GenerationConfig -> result string)
    (SECRET_KEY : string) (sign : string -> gmap string claim -> string)
    (verify_password : string -> string -> bool)
    (hash_password : string -> string)
    (user_id_default : DB -> Z) (is_active_default : bool)
    (rs : list request) (w : World) :
  unique_identities (store w) ->
  unique_identities (store (handle_all utcnow generate_content SECRET_KEY sign
                              verify_password hash_password user_id_default
                              is_active_default rs w)).
Proof.
  apply (handle_all_invariant utcnow generate_content SECRET_KEY sign
           verify_password hash_password user_id_default is_active_default
           unique_identities).
  apply handle_unique_identities.
Qed.

Lemma identities_stay_unique_witness :
  unique_identities
    (store (handle_all clock0 hello_backend "k" toy_sign
              plain_verify_password toy_hash count_user_id true
              [POST_auth_register (mkUserRegister "ana" "ana@x.com" "pw123");
               POST_auth_register (mkUserRegister "ana" "a2@x.com" "pw");
               POST_auth_register (mkUserRegister "cy" "cy@x.com" "pw")]
              (mkWorld empty_db 0 []))).
Proof.
  apply identities_stay_unique. split; constructor.
Defined.

(** ** Prompt formatting *)

Lemma string_append_assoc (a b c : string) : (a +:+ b) +:+ c = a +:+ b +:+ c.
Proof.
  induction a as [|x a IH]; [done|].
  change (String x ((a +:+ b) +:+ c) = String x (a +:+ b +:+ c)).
  by rewrite IH.
Qed.

Lemma string_append_nil_r (a : string) : a +:+ "" = a.
Proof.
  induction a as [|x a IH]; [done|].
  change (String x (a +:+ "") = String x a). by rewrite IH.
Qed.

Lemma lower_ascii_idempotent c : lower_ascii (lower_ascii c) = lower_ascii c.
Proof. by destruct c as [[] [] [] [] [] [] [] []]. Qed.

Lemma upper_ascii_idempotent c : upper_ascii (upper_ascii c) = upper_ascii c.
Proof. by destruct c as [[] [] [] [] [] [] [] []]. Qed.

Lemma upper_lower_ascii c : upper_ascii (lower_ascii c) = upper_ascii c.
Proof. by destruct c as [[] [] [] [] [] [] [] []]. Qed.

Lemma lower_upper_ascii c : lower_ascii (upper_ascii c) = lower_ascii c.
Proof. by destruct c as [[] [] [] [] [] [] [] []]. Qed.

Lemma lower_idempotent s : lower (lower s) = lower s.
Proof.
  induction s as [|c s IH]; simpl; [done|].
  by rewrite lower_ascii_idempotent, IH.
Qed.

Lemma lower_capitalize s : lower (capitalize s) = lower s.
Proof.
  destruct s as [|c s]; simpl; [done|].
  by rewrite lower_upper_ascii, lower_idempotent.
Qed.

Lemma capitalize_lower s : capitalize (lower s) = capitalize s.
Proof.
  destruct s as [|c s]; simpl; [done|].
  by rewrite upper_lower_ascii, lower_idempotent.
Qed.

Lemma capitalize_same_letters s1 s2 :
  lower s1 = lower s2 -> capitalize s1 = capitalize s2.
Proof.
  intros Heq. by rewrite <- (capitalize_lower s1), Heq, capitalize_lower.
Qed.

(** X15.  The role of a turn enters the prompt through [capitalize], which
    only looks at the letters, not at their case: two histories whose
    roles are ASCII strings that differ only in letter case and whose
    contents are equal give the same prompt; on ASCII strings capitalizing
    is idempotent and keeps the length. *)
Theorem prompt_ignores_role_case (h1 h2 : list (string * string)) :
  Forall (fun a => ascii_only a.1 = true) h1 ->
  Forall (fun b => ascii_only b.1 = true) h2 ->
  Forall2 (fun a b => lower a.1 = lower b.1 /\ a.2 = b.2) h1 h2 ->
  GenAIService._format_messages_for_gemini (map message_of_turn h1)
  = GenAIService._format_messages_for_gemini (map message_of_turn h2)
  /\ Forall (fun a => capitalize (capitalize a.1) = capitalize a.1
                      /\ String.length (capitalize a.1) = String.length a.1
                      /\ ascii_only (capitalize a.1) = true) h1.
Proof.
  intros Hascii1 _ Hsame. split.
  - unfold GenAIService._format_messages_for_gemini. rewrite !map_map.
    f_equal. f_equal.
    induction Hsame as [|a b h1 h2 [Hrole Hcontent] _ IH]; simpl; [done|].
    apply Forall_cons in Hascii1 as [_ Hascii1].
    rewrite (IH Hascii1), !format_turn_message_of_turn. unfold rendered.
    by rewrite (capitalize_same_letters _ _ Hrole), Hcontent.
  - eapply Forall_impl; [exact Hascii1|]. intros [r c]. simpl. intros Hr.
    split_and!.
    + apply capitalize_same_letters, lower_capitalize.
    + destruct r as [|x r]; simpl; [done|]. f_equal.
      clear Hr. induction r as [|y r IH]; simpl; [done | by rewrite IH].
    + destruct r as [|x r]; simpl in *; [done|].
      apply andb_true_iff in Hr as [Hx Hr].
      apply andb_true_iff. split.
      * revert Hx. clear. by destruct x as [[] [] [] [] [] [] [] []].
      * clear Hx. induction r as [|y r IH]; simpl in *; [done|].
        apply andb_true_iff in Hr as [Hy Hr].
        apply andb_true_iff. split; [|by apply IH].
        revert Hy. clear. by destruct y as [[] [] [] [] [] [] [] []].
Qed.

Lemma prompt_ignores_role_case_witness :
  GenAIService._format_messages_for_gemini
    (map message_of_turn [("USER", "hi"); ("assistant", "hello")])
  = GenAIService._format_messages_for_gemini
      (map message_of_turn [("user", "hi"); ("Assistant", "hello")]).
Proof.
  apply (prompt_ignores_role_case
           [("USER", "hi"); ("assistant", "hello")]
           [("user", "hi"); ("Assistant", "hello")]);
    repeat constructor.
Defined.

Lemma format_turns (h : list (string * string)) :
  GenAIService._format_messages_for_gemini (map message_of_turn h) =
  join newline (map rendered h) +:+ newline +:+ "Assistant:".
Proof.
  unfold GenAIService._format_messages_for_gemini. rewrite map_map.
  by rewrite (map_ext _ rendered format_turn_message_of_turn).
Qed.

Lemma join_cons_cons (sep x y : string) (l : list string) :
  join sep (x :: y :: l) = x +:+ sep +:+ join sep (y :: l).
Proof. reflexivity. Qed.

(** X16.  The prompt does not keep the boundaries of the turns: a history
    and the shorter history in which the second turn, rendered, is
    appended after a newline to the content of the first give the same
    prompt, so the backend cannot tell a turn from text that looks like
    one. *)
Theorem prompt_merges_turns
    (a b : string * string) (rest : list (string * string)) :
  GenAIService._format_messages_for_gemini
    (map message_of_turn (a :: b :: rest))
  = GenAIService._format_messages_for_gemini
      (map message_of_turn ((a.1, a.2 +:+ newline +:+ rendered b) :: rest))
  /\ length (a :: b :: rest)
     <> length ((a.1, a.2 +:+ newline +:+ rendered b) :: rest).
Proof.
  split; [|simpl; lia].
  rewrite !format_turns. f_equal. simpl map. rewrite join_cons_cons.
  assert (Hmerged :
    rendered (a.1, a.2 +:+ newline +:+ rendered b)
    = rendered a +:+ newline +:+ rendered b).
  { unfold rendered at 1 3. simpl. by rewrite !string_append_assoc. }
  rewrite Hmerged.
  destruct rest as [|c rest].
  - reflexivity.
  - simpl map. rewrite !join_cons_cons. by rewrite !string_append_assoc.
Qed.

(** ** Streaming *)

Lemma yield_texts_filter (cs : list string) :
  yield_texts cs = filter (fun t => t <> "") cs.
Proof.
  induction cs as [|t cs IH]; simpl; [done|].
  rewrite filter_cons. destruct t as [|c t].
  - by rewrite decide_False by (intros H; by apply H).
  - rewrite decide_True by discriminate. by rewrite IH.
Qed.

Lemma concat_texts_yield_texts (cs : list string) :
  concat_texts (yield_texts cs) = concat_texts cs.
Proof.
  induction cs as [|t cs IH]; simpl; [done|].
  destruct t as [|c t]; simpl; [exact IH | by rewrite IH].
Qed.

(** X17.  [stream_response] asks the backend once, with the prompt and the
    parameters [generate_response] would use, and writes nothing to the
    store.  It never yields an empty fragment; what it yields are the
    backend's non-empty chunks in arrival order, so their concatenation is
    the concatenation of all chunks delivered; when the stream breaks off,
    the fragments before the failure have been yielded and the failure is
    raised as "Error streaming response: ..."; when the call itself is
    refused nothing is yielded. *)
Theorem stream_response_fragments
    (generate_content_stream :
       string -> GenerationConfig -> result BackendStream)
    (messages : list GenAIService.message)
    (temperature : QArith_base.Q) (max_tokens : option Z) (s : Session) :
  let prompt := GenAIService._format_messages_for_gemini messages in
  let config :=
    mkConfig temperature (GenAIService.max_tokens_or max_tokens 1024) in
  let run := stream_response generate_content_stream messages temperature
               max_tokens s in
  let out := run.1 in
  sent (world run.2) = sent (world s) ++ [mkCall prompt config]
  /\ store (world run.2) = store (world s)
  /\ pending run.2 = pending s
  /\ commits run.2 = commits s
  /\ Forall (fun t => t <> "") (yielded out)
  /\ (forall response, generate_content_stream prompt config = Ok response ->
        yielded out = filter (fun t => t <> "") (chunks response)
        /\ yielded out `sublist_of` chunks response
        /\ concat_texts (yielded out) = concat_texts (chunks response)
        /\ (failure response = None -> raised out = None)
        /\ (forall e, failure response = Some e ->
              raised out
              = Some (Exception ("Error streaming response: " +:+ str_exn e))))
  /\ (forall e, generate_content_stream prompt config = Raise e ->
        yielded out = []
        /\ raised out
           = Some (Exception ("Error streaming response: " +:+ str_exn e))).
Proof.
  cbv zeta. unfold stream_response. simpl.
  split_and!; try done.
  - destruct (generate_content_stream _ _) as [response|e]; simpl;
      [|constructor].
    rewrite yield_texts_filter. apply Forall_forall. intros t Ht.
    by apply list_elem_of_filter in Ht as [? _].
  - intros response ->. simpl. split_and!.
    + apply yield_texts_filter.
    + rewrite yield_texts_filter. apply sublist_filter.
    + apply concat_texts_yield_texts.
    + by intros ->.
    + by intros e ->.
  - by intros e ->.
Qed.

Lemma stream_response_fragments_witness :
  let backend := fun (_ : string) (_ : GenerationConfig) =>
    Ok (mkStream ["Hel"; ""; "lo"] (Some (Exception "reset"))) in
  let run := stream_response backend [] GenAIService.default_temperature None
               (SessionLocal world0) in
  yielded run.1 = ["Hel"; "lo"]
  /\ raised run.1 = Some (Exception "Error streaming response: reset")
  /\ length (sent (world run.2)) = 1%nat.
Proof.
  destruct (stream_response_fragments
              (fun _ _ => Ok (mkStream ["Hel"; ""; "lo"]
                                       (Some (Exception "reset"))))
              [] GenAIService.default_temperature None (SessionLocal world0))
    as (Hsent & _ & _ & _ & _ & Hok & _).
  destruct (Hok _ eq_refl) as (Hy & _ & _ & _ & Hraised).
  split_and!; [exact Hy | exact (Hraised _ eq_refl) |].
  cbv zeta. by rewrite Hsent.
Defined.

(** ** The parameters of a generation *)

(** X18.  Whatever its parameters, [generate_response] makes exactly one
    backend call and writes nothing to the store.  The output cap it
    passes is the caller's [max_tokens] when that is given and not zero,
    and 1024 otherwise, so an explicit cap of 0 is replaced by 1024.  When
    the backend answers with a text that text is returned; when the
    backend raises, [generate_response] raises an exception whose text is
    "Error generating response: " followed by the text of the backend's
    exception. *)
Theorem generate_response_parameters
    (generate_content : string -> GenerationConfig -> result string)
    (messages : list GenAIService.message)
    (temperature : QArith_base.Q) (max_tokens : option Z) (s : Session) :
  let prompt := GenAIService._format_messages_for_gemini messages in
  let out := generate_response generate_content messages temperature
               max_tokens s in
  exists cap,
    sent (world out.2) =
      sent (world s) ++ [mkCall prompt (mkConfig temperature cap)]
    /\ (max_tokens = None \/ max_tokens = Some 0 -> cap = 1024)
    /\ (forall n, max_tokens = Some n -> n <> 0 -> cap = n)
    /\ store (world out.2) = store (world s)
    /\ pending out.2 = pending s
    /\ commits out.2 = commits s
    /\ ticks (world out.2) = ticks (world s)
    /\ (forall text,
          generate_content prompt (mkConfig temperature cap) = Ok text ->
          out.1 = Ok text)
    /\ (forall e,
          generate_content prompt (mkConfig temperature cap) = Raise e ->
          out.1 = Raise (Exception ("Error generating response: "
                                    +:+ str_exn e))).
Proof.
  cbv zeta. exists (GenAIService.max_tokens_or max_tokens 1024).
  unfold generate_response, try_except, bind, model_generate_content, ret.
  destruct (generate_content _ _) as [text|e]; simpl; split_and!;
    first [ done
          | by intros [->| ->]
          | by intros ? [= <-]
          | intros n -> Hn; simpl; by rewrite (proj2 (Z.eqb_neq _ _) Hn) ].
Qed.

Lemma generate_response_parameters_witness :
  let out := generate_response failing_backend []
               GenAIService.default_temperature (Some 0)
               (SessionLocal world0) in
  sent (world out.2) =
    [mkCall (newline +:+ "Assistant:")
            (mkConfig GenAIService.default_temperature 1024)]
  /\ out.1 = Raise (Exception "Error generating response: quota exceeded").
Proof.
  destruct (generate_response_parameters failing_backend []
              GenAIService.default_temperature (Some 0) (SessionLocal world0))
    as (cap & Hsent & Hdefault & _ & _ & _ & _ & _ & _ & Hraise).
  cbv zeta. split.
  - rewrite Hsent, (Hdefault (or_intror eq_refl)). reflexivity.
  - exact (Hraise (Exception "quota exceeded") eq_refl).
Defined.

(** ** Reading back what was written *)

Lemma owned_conversation_touched d cid t uid :
  owned_conversation (touched d cid t) cid uid
  = option_map (Conversation.set_updated_at t) (owned_conversation d cid uid).
Proof.
  unfold owned_conversation, touched; simpl.
  induction (conversations d) as [|c l IH]; [done|].
  rewrite map_cons, !filter_cons.
  set (c' := if decide (Conversation.id c = cid)
             then Conversation.set_updated_at t c else c).
  assert (Hc' : c' = c \/ (Conversation.id c = cid
                            /\ c' = Conversation.set_updated_at t c)).
  { unfold c'. case_decide; tauto. }
  assert (Hiff : (Conversation.id c' = cid /\ Conversation.user_id c' = uid)
                 <-> (Conversation.id c = cid /\ Conversation.user_id c = uid)).
  { destruct Hc' as [->|[_ ->]]; simpl; tauto. }
  destruct (decide (Conversation.id c = cid /\ Conversation.user_id c = uid))
    as [Hp|Hp].
  - rewrite decide_True by tauto. simpl.
    unfold c'. by rewrite decide_True by tauto.
  - rewrite decide_False by tauto. exact IH.
Qed.

(** X19.  With a clock that never runs backwards and a conversation whose
    rows were stamped in order, the owner's [get_conversation] right after
    a successful [send_message] shows the earlier turns followed by the
    user text and the returned assistant text, the last message carrying
    the returned message id, and the conversation's last-updated time set
    by the request. *)
Theorem get_after_send
    (utcnow : nat -> Z)
    (generate_content : string -> GenerationConfig -> result string)
    (w w' : World) (cid uid : Z) (req : ChatRequest) (resp : ChatResponse) :
  monotone utcnow ->
  stamped_in_order utcnow w cid ->
  serve (send_message utcnow generate_content cid req uid) w = (Ok resp, w') ->
  exists detail,
    serve (get_conversation cid uid) w' = (Ok detail, w')
    /\ map (fun m => (mr_role m, mr_content m)) (cd_messages detail)
       = map turn (rows_of cid (store w))
         ++ [("user", message req); ("assistant", assistant_message resp)]
    /\ option_map mr_id (last (cd_messages detail)) = Some (message_id resp)
    /\ cr_id (cd_conversation detail) = cid
    /\ cr_updated_at (cd_conversation detail) = utcnow (S (S (ticks w))).
Proof.
  intros Hmono Hinv Hok.
  destruct (send_message_stamped utcnow generate_content w cid req uid resp w'
              Hmono Hinv Hok) as [Hinv' Hrows].
  pose proof (messages_of_stamped utcnow w' cid Hinv') as Hhist.
  apply send_message_Ok in Hok as ([c Hown] & _ & Hid & ->).
  pose proof (owned_conversation_Some _ _ _ _ Hown) as (_ & Hcid & _).
  rewrite get_conversation_serve. simpl store in *.
  rewrite owned_conversation_touched.
  change (owned_conversation (with_message (with_message (store w) _) _) cid uid)
    with (owned_conversation (store w) cid uid).
  rewrite Hown. simpl option_map. cbv iota beta.
  eexists. split; [reflexivity|]. simpl.
  rewrite Hcid, Hhist, Hrows.
  split_and!; try done.
  - rewrite map_map, map_app. reflexivity.
  - rewrite map_app.
    change (map MessageResponse_of
              [user_turn utcnow w cid req;
               assistant_turn utcnow w cid (assistant_message resp)])
      with ([MessageResponse_of (user_turn utcnow w cid req)]
            ++ [MessageResponse_of
                  (assistant_turn utcnow w cid (assistant_message resp))]).
    rewrite app_assoc, last_snoc. simpl. by rewrite Hid.
Qed.

Lemma get_after_send_witness :
  let w' := (serve (send_message clock0 hello_backend 1
                      (mkChatRequest 1 "hi") 1) world0).2 in
  exists detail,
    serve (get_conversation 1 1) w' = (Ok detail, w')
    /\ map (fun m => (mr_role m, mr_content m)) (cd_messages detail)
       = [("user", "hi"); ("assistant", "hello")].
Proof.
  assert (Hmono : monotone clock0).
  { intros i j Hij. unfold clock0. lia. }
  assert (Hinv : stamped_in_order clock0 world0 1) by (split; constructor).
  assert (Hsend :
    serve (send_message clock0 hello_backend 1 (mkChatRequest 1 "hi") 1) world0
    = (Ok (mkChatResponse "hello" 2),
       (serve (send_message clock0 hello_backend 1
                 (mkChatRequest 1 "hi") 1) world0).2))
    by (vm_compute; reflexivity).
  destruct (get_after_send clock0 hello_backend world0
              (serve (send_message clock0 hello_backend 1
                        (mkChatRequest 1 "hi") 1) world0).2
              1 1 (mkChatRequest 1 "hi") (mkChatResponse "hello" 2)
              Hmono Hinv Hsend) as (detail & Hget & Hturns & _).
  exists detail. split; [exact Hget | exact Hturns].
Defined.

(** X20.  Deleting a conversation leaves every other conversation's rows
    and history, the users and both sequences as they were, so ids of
    deleted rows are not handed out again. *)
Theorem delete_conversation_other_conversations
    (w : World) (cid uid other : Z) :
  other <> cid ->
  let w' := (serve (delete_conversation cid uid) w).2 in
  rows_of other (store w') = rows_of other (store w)
  /\ messages_of other (store w') = messages_of other (store w)
  /\ (forall c, Conversation.id c <> cid ->
        (c ∈ conversations (store w') <-> c ∈ conversations (store w)))
  /\ users (store w') = users (store w)
  /\ conversation_seq (store w') = conversation_seq (store w)
  /\ message_seq (store w') = message_seq (store w).
Proof.
  intros Hne. cbv zeta. rewrite delete_conversation_serve.
  destruct (owned_conversation (store w) cid uid) as [c|] eqn:Hown; [|done].
  apply owned_conversation_Some in Hown as (_ & Hid & _). simpl. rewrite Hid.
  assert (Hrows : rows_of other (without_conversation (store w) cid)
                  = rows_of other (store w)).
  { rewrite rows_of_without_conversation. by rewrite decide_False. }
  split_and!; try done.
  - unfold messages_of. fold (rows_of other (without_conversation (store w) cid)).
    fold (rows_of other (store w)). by rewrite Hrows.
  - intros c' Hc'. simpl. rewrite list_elem_of_filter. tauto.
Qed.

Lemma delete_conversation_other_conversations_witness :
  let w1 := (serve (send_message clock0 hello_backend 2
                      (mkChatRequest 2 "milk?") 1) world0).2 in
  let w' := (serve (delete_conversation 1 1) w1).2 in
  rows_of 2 (store w') = rows_of 2 (store w1).
Proof.
  exact (proj1 (delete_conversation_other_conversations
                  (serve (send_message clock0 hello_backend 2
                            (mkChatRequest 2 "milk?") 1) world0).2
                  1 1 2 ltac:(lia))).
Defined.

(** ** What never changes in a conversation *)

Section Immutable.

Variable utcnow : nat -> Z.
Variable generate_content : string -> GenerationConfig -> result string.
Variable SECRET_KEY : string.
Variable sign : string -> gmap string claim -> string.
Variable verify_password : string -> string -> bool.
Variable hash_password : string -> string.
Variable user_id_default : DB -> Z.
Variable is_active_default : bool.

Local Abbreviation handle :=
  (handle utcnow generate_content SECRET_KEY sign verify_password
          hash_password user_id_default is_active_default).

Lemma handle_still_denotes (c : Conversation.t) r w :
  still_denotes c (store w) -> still_denotes c (store (handle r w)).
Proof.
  intros [Hseq Hsame].
  destruct r as [ud|ud|data uid|uid|cid uid|cid req uid|cid uid]; unfold handle.
  - rewrite register_serve. by destruct (head _).
  - rewrite login_serve. destruct (head _) as [u|]; [|done].
    destruct (verify_password _ _); [|done]. by destruct (User.is_active u).
  - rewrite create_conversation_serve. destruct (user_row _ _); [|done].
    split; simpl; [lia|]. apply Forall_app. split; [done|].
    constructor; [|constructor]. simpl. intros Heq. lia.
  - by rewrite list_conversations_serve.
  - rewrite get_conversation_serve. by destruct (owned_conversation _ _ _).
  - rewrite send_message_serve.
    destruct (owned_conversation _ _ _) as [c0|]; [|done]. cbv zeta.
    destruct (generate_content _ _) as [text|e]; [|done].
    split; [done|]. simpl. apply Forall_fmap.
    eapply Forall_impl; [exact Hsame|]. simpl. intros c1 Hc1.
    case_decide; [|done]. simpl. exact Hc1.
  - rewrite delete_conversation_serve.
    destruct (owned_conversation _ _ _) as [c0|]; [|done].
    split; [done|]. simpl. by apply Forall_filter_keep.
Qed.

End Immutable.

(** X21.  Ownership, title and creation time of a conversation never
    change, and its id is never given to another conversation: after any
    sequence of requests, a conversation found under the id of an earlier
    conversation has that conversation's owner, title and creation
    time. *)
Theorem conversation_identity_is_immutable
    (utcnow : nat -> Z)
    (generate_content : string -> GenerationConfig -> result string)
    (SECRET_KEY : string) (sign : string -> gmap string claim -> string)
    (verify_password : string -> string -> bool)
    (hash_password : string -> string)
    (user_id_default : DB -> Z) (is_active_default : bool)
    (rs : list request) (w : World) (c c' : Conversation.t) :
  wf_db (store w) ->
  c ∈ conversations (store w) ->
  c' ∈ conversations
         (store (handle_all utcnow generate_content SECRET_KEY sign
                   verify_password hash_password user_id_default
                   is_active_default rs w)) ->
  Conversation.id c' = Conversation.id c ->
  Conversation.user_id c' = Conversation.user_id c
  /\ Conversation.title c' = Conversation.title c
  /\ Conversation.created_at c' = Conversation.created_at c.
Proof.
  intros (Hnd & Hbound & _ & _) Hc Hc' Hid.
  assert (Hstart : still_denotes c (store w)).
  { split.
    - exact (proj1 (Forall_forall _ _) Hbound c Hc).
    - apply Forall_forall. intros c1 Hc1 Hid1.
      by rewrite (NoDup_key_inj Conversation.id _ c1 c Hnd Hc1 Hc Hid1). }
  pose proof (handle_all_invariant utcnow generate_content SECRET_KEY sign
                verify_password hash_password user_id_default
                is_active_default (still_denotes c)
                (handle_still_denotes utcnow generate_content SECRET_KEY sign
                   verify_password hash_password user_id_default
                   is_active_default c)
                rs w Hstart) as [_ Hend].
  exact (proj1 (Forall_forall _ _) Hend c' Hc' Hid).
Qed.

Lemma conversation_identity_is_immutable_witness :
  let c' := Conversation.mk 1 1 "trip" 990 1002 in
  Conversation.user_id c' = Conversation.user_id trip
  /\ Conversation.title c' = Conversation.title trip
  /\ Conversation.created_at c' = Conversation.created_at trip.
Proof.
  assert (Hwf : wf_db (store world0)).
  { unfold wf_db; simpl. split_and!.
    - apply NoDup_cons. split; [|apply NoDup_singleton].
      intros Hin. apply list_elem_of_singleton in Hin. lia.
    - repeat constructor; simpl; lia.
    - constructor.
    - constructor. }
  assert (Hlater :
    Conversation.mk 1 1 "trip" 990 1002
    ∈ conversations
        (store (handle_all clock0 hello_backend "k" toy_sign
                  plain_verify_password toy_hash count_user_id true
                  [POST_chat_messages 1 (mkChatRequest 1 "hi") 1;
                   POST_chat_conversations (mkConversationCreate "x") 2]
                  world0))).
  { assert (Hstore :
      conversations
        (store (handle_all clock0 hello_backend "k" toy_sign
                  plain_verify_password toy_hash count_user_id true
                  [POST_chat_messages 1 (mkChatRequest 1 "hi") 1;
                   POST_chat_conversations (mkConversationCreate "x") 2]
                  world0))
      = [Conversation.mk 1 1 "trip" 990 1002; errands;
         Conversation.mk 3 2 "x" 1003 1003]) by (vm_compute; reflexivity).
    rewrite Hstore. by left. }
  exact (conversation_identity_is_immutable clock0 hello_backend "k" toy_sign
           plain_verify_password toy_hash count_user_id true _ world0 trip _
           Hwf ltac:(by left) Hlater eq_refl).
Defined.

(** ** History order under a clock that never runs backwards *)

Lemma stamped_later utcnow w w2 cid :
  monotone utcnow ->
  stamped_in_order utcnow w cid ->
  rows_of cid (store w2) = rows_of cid (store w) ->
  (ticks w <= ticks w2)%nat ->
  stamped_in_order utcnow w2 cid.
Proof.
  intros Hmono [Hs Hb] Hrows Hticks. unfold stamped_in_order. rewrite Hrows.
  split; [done|]. eapply Forall_impl; [exact Hb|]. simpl. intros m Hm.
  specialize (Hmono _ _ Hticks). lia.
Qed.

Lemma stamped_snoc utcnow w w2 cid m :
  monotone utcnow ->
  stamped_in_order utcnow w cid ->
  rows_of cid (store w2) = rows_of cid (store w) ++ [m] ->
  Message.created_at m = utcnow (ticks w) ->
  (ticks w <= ticks w2)%nat ->
  stamped_in_order utcnow w2 cid.
Proof.
  intros Hmono [Hs Hb] Hrows Hm Hticks. unfold stamped_in_order. rewrite Hrows.
  specialize (Hmono _ _ Hticks). split.
  - apply StronglySorted_app. split_and!; [|done|repeat constructor].
    intros m1 m2 Hm1 Hm2. apply list_elem_of_singleton in Hm2 as ->.
    rewrite Hm. exact (proj1 (Forall_forall _ _) Hb m1 Hm1).
  - apply Forall_app. split.
    + eapply Forall_impl; [exact Hb|]. simpl. intros m1 Hm1. lia.
    + repeat constructor. lia.
Qed.

Section HistoryOrder.

Variable utcnow : nat -> Z.
Variable generate_content : string -> GenerationConfig -> result string.
Variable SECRET_KEY : string.
Variable sign : string -> gmap string claim -> string.
Variable verify_password : string -> string -> bool.
Variable hash_password : string -> string.
Variable user_id_default : DB -> Z.
Variable is_active_default : bool.
Hypothesis clock_monotone : monotone utcnow.

Local Abbreviation handle :=
  (handle utcnow generate_content SECRET_KEY sign verify_password
          hash_password user_id_default is_active_default).
Local Abbreviation handle_all :=
  (handle_all utcnow generate_content SECRET_KEY sign verify_password
              hash_password user_id_default is_active_default).

Lemma handle_all_stamped r w :
  all_stamped utcnow w -> all_stamped utcnow (handle r w).
Proof.
  intros Hall cid0. specialize (Hall cid0).
  destruct r as [ud|ud|data uid|uid|cid uid|cid req uid|cid uid]; unfold handle.
  - rewrite register_serve. destruct (head _); [done|].
    apply (stamped_later utcnow w); simpl; [done | done | done | lia].
  - rewrite login_serve. destruct (head _) as [u|]; [|done].
    destruct (verify_password _ _); [|done].
    destruct (User.is_active u); [|done].
    apply (stamped_later utcnow w); simpl; [done | done | done | lia].
  - rewrite create_conversation_serve. destruct (user_row _ _); [|done].
    apply (stamped_later utcnow w); simpl; [done | done | done | lia].
  - by rewrite list_conversations_serve.
  - rewrite get_conversation_serve. by destruct (owned_conversation _ _ _).
  - rewrite send_message_serve.
    destruct (owned_conversation _ _ _) as [c|]; [|done]. cbv zeta.
    set (um := user_turn utcnow w cid req).
    set (w1 := mkWorld (with_message (store w) um) (S (ticks w)) (sent w)).
    assert (H1 : stamped_in_order utcnow w1 cid0).
    { destruct (decide (cid = cid0)) as [<-|Hne].
      - apply (stamped_snoc utcnow w w1 cid um); simpl; try done; [|lia].
        rewrite rows_of_with_message. simpl. by rewrite decide_True.
      - apply (stamped_later utcnow w); simpl; try done; [|lia].
        rewrite rows_of_with_message. simpl.
        rewrite decide_False by done. apply app_nil_r. }
    destruct (generate_content _ _) as [text|e]; simpl.
    + set (am := assistant_turn utcnow w cid text).
      destruct (decide (cid = cid0)) as [<-|Hne].
      * apply (stamped_snoc utcnow w1 _ cid am); simpl; try done; [|lia].
        rewrite rows_of_touched, rows_of_with_message. simpl.
        by rewrite decide_True.
      * apply (stamped_later utcnow w1); simpl; try done; [|lia].
        rewrite rows_of_touched, rows_of_with_message. simpl.
        rewrite decide_False by done. apply app_nil_r.
    + apply (stamped_later utcnow w1); simpl; [done | done | done | lia].
  - rewrite delete_conversation_serve.
    destruct (owned_conversation _ _ _) as [c|]; [|done]. simpl.
    destruct (decide (cid0 = Conversation.id c)) as [->|Hne].
    + unfold stamped_in_order. simpl.
      rewrite rows_of_without_conversation, decide_True by done.
      split; constructor.
    + apply (stamped_later utcnow w); simpl; try done.
      rewrite rows_of_without_conversation. by rewrite decide_False.
Qed.

Lemma handle_all_all_stamped rs : forall w,
  all_stamped utcnow w -> all_stamped utcnow (handle_all rs w).
Proof.
  unfold handle_all.
  induction rs as [|r rs IH]; intros w Hw; simpl; [done|].
  by apply IH, handle_all_stamped.
Qed.

End HistoryOrder.


